(** * ae-mcp: the primitive range types and the layer enumerations

    The repository is a set of TypeScript declarations.  Its only computed
    entity is the type-level utility [NumericRange] of
    [src/types/primitives.ts]; the rest is enumerations and type aliases.

    A type of the fragment the declarations use is embedded as a term of
    [ty]; the relation the TypeScript checker decides between two such
    types (assignability, which is also what [extends] tests in a
    conditional type whose check type is not a bare type parameter) is the
    boolean function [assignable].  [NumericRange] is then the recursive
    type alias of the source, unfolded by an explicit fuel. *)

From Stdlib Require Import ZArith QArith Lia List String.
From stdpp Require Import base decidable option list gmap.

Open Scope Z_scope.

(** ** Types of the fragment *)

Module TS.

(** Numeric literal types carry a rational: the literals of the declarations
    are small integers, and [0.5] is needed as a candidate value. *)
Inductive ty : Type :=
| TNever
| TUndefined
| TNumber
| TString
| TNumLit (q : Q)
| TStrLit (s : string)
| TUnion (a b : ty)
| TInter (a b : ty)
| TObj (k : string) (v : ty).

(** A tuple type is the list of its element types. *)
Abbreviation tuple := (list ty).

(** The literal type of an integer literal. *)
Definition lit (n : Z) : ty := TNumLit (inject_Z n).

(** A source type is related to a target that is neither a union nor an
    intersection constituent by constituent: every member of a source union
    must be related, one member of a source intersection is enough, and
    [never] is related to everything. *)
Fixpoint to_unit (base : ty -> bool) (S : ty) : bool :=
  match S with
  | TNever => true
  | TUnion a b => to_unit base a && to_unit base b
  | TInter a b => to_unit base a || to_unit base b
  | _ => base S
  end.

(** A source union is related to a target union when each of its members
    is related to the target. *)
Fixpoint each_member (f : ty -> bool) (S : ty) : bool :=
  match S with
  | TNever => true
  | TUnion a b => each_member f a && each_member f b
  | _ => f S
  end.

(** [assignable S T]: a value of type [S] may be used where [T] is expected.
    A primitive number or string has none of the properties an object type
    of the fragment asks for. *)
Fixpoint assignable (S T : ty) {struct T} : bool :=
  match T with
  | TUnion t1 t2 => each_member (fun s => assignable s t1 || assignable s t2) S
  | TInter t1 t2 => assignable S t1 && assignable S t2
  | TNever => to_unit (fun _ => false) S
  | TUndefined =>
      to_unit (fun s => match s with TUndefined => true | _ => false end) S
  | TNumber =>
      to_unit (fun s => match s with TNumber | TNumLit _ => true | _ => false end) S
  | TString =>
      to_unit (fun s => match s with TString | TStrLit _ => true | _ => false end) S
  | TNumLit q =>
      to_unit (fun s => match s with TNumLit p => Qeq_bool p q | _ => false end) S
  | TStrLit x =>
      to_unit (fun s => match s with TStrLit y => String.eqb y x | _ => false end) S
  | TObj k v =>
      to_unit (fun s => match s with
                        | TObj k' v' => String.eqb k' k && assignable v' v
                        | _ => false
                        end) S
  end.

(** [A extends B] in a conditional type. *)
Definition extends (A B : ty) : bool := assignable A B.

(** [T] accepts the numeric literal [q]. *)
Definition accepts (T : ty) (q : Q) : bool := assignable (TNumLit q) T.

(** [ARR['length']]: the literal type of the tuple's length. *)
Definition tuple_length (ARR : tuple) : ty := lit (Z.of_nat (length ARR)).

(** [ARR[i]] for a literal index in an instantiated alias: the element type
    at a position of the tuple, [undefined] past its end, and for a negative
    index the tuple's numeric index signature, the union of its elements. *)
Definition tuple_index (ARR : tuple) (i : Z) : ty :=
  if 0 <=? i
  then match ARR !! Z.to_nat i with
       | Some t => t
       | None => TUndefined
       end
  else fold_right TUnion TNever ARR.

(** Two tuple types of fixed length are related element by element. *)
Fixpoint tuple_assignable (src dst : tuple) : bool :=
  match src, dst with
  | [], [] => true
  | s :: src', d :: dst' => assignable s d && tuple_assignable src' dst'
  | _, _ => false
  end.

End TS.

Import TS.

(** ** src/types/primitives.ts *)

(** [NumericRange<START, END, ARR = [], ACC = never>], one unfolding of the
    alias per unit of fuel.  [None] is an unfolding that has not reached
    its base case.  The bounds are integer literals, as in every
    instantiation of the declarations.  The depth at which the checker
    gives up on a recursive alias is not fixed by the declarations and is
    not modelled: the results hold for every fuel large enough. *)
Fixpoint NumericRange_fuel (fuel : nat) (START END : Z) (ARR : tuple) (ACC : ty)
  : option ty :=
  match fuel with
  | O => None
  | S fuel' =>
      if extends (tuple_length ARR) (lit END)
      then Some (TUnion (TUnion ACC (lit START)) (lit END))
      else NumericRange_fuel fuel' START END (ARR ++ [lit 1])
             (if extends (tuple_index ARR START) TUndefined
              then ACC
              else TUnion ACC (tuple_length ARR))
  end.

(** The alias applied to its two bounds, the defaults filled in, with the
    number of unfoldings a natural [END] needs. *)
Definition NumericRange (START END : Z) : option ty :=
  NumericRange_fuel (S (Z.to_nat END)) START END [] TNever.

Definition Percentage : option ty := NumericRange 0 100.
Definition OpacityRange : option ty := NumericRange 0 100.
Definition LabelIndex : option ty := NumericRange 0 16.
Definition ColorComponent : option ty := NumericRange 0 1.
Definition ConeAngleRange : option ty := NumericRange 1 179.
Definition IORRange : option ty := NumericRange 1 3.

(** [number & { __brand: 'name' }] *)
Definition branded (name : string) : ty :=
  TInter TNumber (TObj "__brand" (TStrLit name)).

Definition ApertureRange : ty := branded "ApertureRange".
Definition TimeRange : ty := branded "TimeRange".
Definition DurationRange : ty := branded "DurationRange".
Definition PixelDimension : ty := branded "PixelDimension".

(** [[ColorComponent, ColorComponent, ColorComponent]] *)
Definition Color : option tuple :=
  match ColorComponent with
  | Some c => Some [c; c; c]
  | None => None
  end.

Definition ThreeDColorValue : option tuple := Color.

(** The aliases that instantiate [NumericRange], with their bounds, in the
    order of the source. *)
Definition NumericRange_instances : list (string * (Z * Z)) :=
  [("Percentage"%string, (0, 100)); ("OpacityRange"%string, (0, 100));
   ("LabelIndex"%string, (0, 16)); ("ColorComponent"%string, (0, 1));
   ("ConeAngleRange"%string, (1, 179)); ("IORRange"%string, (1, 3))].

Definition span (bounds : Z * Z) : Z := snd bounds - fst bounds.

(** The branded aliases with the range their comments document
    ([// Range: 1.4 to 32.0] and so on). *)
Definition branded_aliases : list (ty * (Q * Q)) :=
  [(ApertureRange, (14 # 10, 32 # 1)%Q);
   (TimeRange, (-10800 # 1, 10800 # 1)%Q);
   (DurationRange, (0 # 1, 10800 # 1)%Q);
   (PixelDimension, (1 # 1, 30000 # 1)%Q)].

(** A number carrying the brand [name]: the literal [q] intersected with the
    tag object. *)
Definition tagged (name : string) (q : Q) : ty :=
  TInter (TNumLit q) (TObj "__brand" (TStrLit name)).

(** The range the comments document for a colour component,
    [0.0 to 1.0]. *)
Definition Color_documented_range : Q * Q := (0 # 1, 1 # 1)%Q.

(** ** The reference algorithm of the specification

    "Maintain a counter starting at the lower bound; at each step, add the
    counter's current value to the result set and increment; stop once the
    counter reaches the upper bound, always including both endpoints." *)

Fixpoint spec_accumulate (steps : nat) (counter upper : Z) (result : gset Z)
  : option (gset Z) :=
  match steps with
  | O => None
  | S steps' =>
      if decide (counter = upper)
      then Some result
      else spec_accumulate steps' (counter + 1) upper (result ∪ {[counter]})
  end.

Definition spec_interval (lower upper : Z) : option (gset Z) :=
  match spec_accumulate (S (Z.to_nat (upper - lower))) lower upper ∅ with
  | Some result => Some (result ∪ {[lower]} ∪ {[upper]})
  | None => None
  end.

(** [R] is the set of numbers the type [T] accepts. *)
Definition denotes (T : ty) (R : gset Z) : Prop :=
  forall q : Q, accepts T q = true <-> exists n : Z, n ∈ R /\ (q == inject_Z n)%Q.

(** ** The enumerations of the layer module *)

Module AutoOrientType.

Inductive t : Set :=
| ALONG_PATH
| CAMERA_OR_POINT_OF_INTEREST
| CHARACTERS_TOWARD_CAMERA
| NO_AUTO_ORIENT.

(** The initialiser of each member. *)
Definition code (m : t) : Z :=
  match m with
  | ALONG_PATH => 4213
  | CAMERA_OR_POINT_OF_INTEREST => 4214
  | CHARACTERS_TOWARD_CAMERA => 4215
  | NO_AUTO_ORIENT => 4212
  end.

(** The value a member's doc comment states ([@remarks Integer value: N]),
    when it states one. *)
Definition documented (m : t) : option Z :=
  match m with
  | ALONG_PATH => Some 4213
  | CAMERA_OR_POINT_OF_INTEREST => Some 4214
  | CHARACTERS_TOWARD_CAMERA => Some 4215
  | NO_AUTO_ORIENT => Some 4212
  end.

(** The members in declaration order. *)
Definition members : list t :=
  [ALONG_PATH; CAMERA_OR_POINT_OF_INTEREST; CHARACTERS_TOWARD_CAMERA;
   NO_AUTO_ORIENT].

End AutoOrientType.

Module BlendingMode.

Inductive t : Set :=
| ADD
| ALPHA_ADD
| CLASSIC_COLOR_BURN
| CLASSIC_COLOR_DODGE
| CLASSIC_DIFFERENCE
| COLOR
| COLOR_BURN
| COLOR_DODGE
| DANCING_DISSOLVE
| DARKEN
| DARKER_COLOR
| DIFFERENCE
| DISSOLVE
| DIVIDE
| EXCLUSION
| HARD_LIGHT
| HARD_MIX
| HUE
| LIGHTEN
| LIGHTER_COLOR
| LINEAR_BURN
| LINEAR_DODGE
| LINEAR_LIGHT
| LUMINESCENT_PREMUL
| LUMINOSITY
| MULTIPLY
| NORMAL
| OVERLAY
| PIN_LIGHT
| SATURATION
| SCREEN
| SILHOUETE_ALPHA
| SILHOUETTE_LUMA
| SOFT_LIGHT
| STENCIL_ALPHA
| STENCIL_LUMA
| SUBTRACT
| VIVID_LIGHT.

(** The initialiser of each member. *)
Definition code (m : t) : Z :=
  match m with
  | ADD => 5220
  | ALPHA_ADD => 5244
  | CLASSIC_COLOR_BURN => 5213
  | CLASSIC_COLOR_DODGE => 5212
  | CLASSIC_DIFFERENCE => 5209
  | COLOR => 5216
  | COLOR_BURN => 5227
  | COLOR_DODGE => 5226
  | DANCING_DISSOLVE => 5206
  | DARKEN => 5207
  | DARKER_COLOR => 5245
  | DIFFERENCE => 5223
  | DISSOLVE => 5205
  | DIVIDE => 5246
  | EXCLUSION => 5224
  | HARD_LIGHT => 5218
  | HARD_MIX => 5230
  | HUE => 5214
  | LIGHTEN => 5208
  | LIGHTER_COLOR => 5243
  | LINEAR_BURN => 5228
  | LINEAR_DODGE => 5229
  | LINEAR_LIGHT => 5233
  | LUMINESCENT_PREMUL => 5221
  | LUMINOSITY => 5217
  | MULTIPLY => 5210
  | NORMAL => 5204
  | OVERLAY => 5211
  | PIN_LIGHT => 5234
  | SATURATION => 5215
  | SCREEN => 5222
  | SILHOUETE_ALPHA => 5219
  | SILHOUETTE_LUMA => 5225
  | SOFT_LIGHT => 5231
  | STENCIL_ALPHA => 5235
  | STENCIL_LUMA => 5236
  | SUBTRACT => 5247
  | VIVID_LIGHT => 5232
  end.

(** The value a member's doc comment states ([@remarks Integer value: N]),
    when it states one. *)
Definition documented (m : t) : option Z := None.

(** The members in declaration order. *)
Definition members : list t :=
  [ADD; ALPHA_ADD; CLASSIC_COLOR_BURN; CLASSIC_COLOR_DODGE;
   CLASSIC_DIFFERENCE; COLOR; COLOR_BURN; COLOR_DODGE; DANCING_DISSOLVE;
   DARKEN; DARKER_COLOR; DIFFERENCE; DISSOLVE; DIVIDE; EXCLUSION;
   HARD_LIGHT; HARD_MIX; HUE; LIGHTEN; LIGHTER_COLOR; LINEAR_BURN;
   LINEAR_DODGE; LINEAR_LIGHT; LUMINESCENT_PREMUL; LUMINOSITY; MULTIPLY;
   NORMAL; OVERLAY; PIN_LIGHT; SATURATION; SCREEN; SILHOUETE_ALPHA;
   SILHOUETTE_LUMA; SOFT_LIGHT; STENCIL_ALPHA; STENCIL_LUMA; SUBTRACT;
   VIVID_LIGHT].

End BlendingMode.

Module FrameBlendingType.

Inductive t : Set :=
| FRAME_MIX
| NO_FRAME_BLEND
| PIXEL_MOTION.

(** The initialiser of each member. *)
Definition code (m : t) : Z :=
  match m with
  | FRAME_MIX => 11213
  | NO_FRAME_BLEND => 11211
  | PIXEL_MOTION => 11212
  end.

(** The value a member's doc comment states ([@remarks Integer value: N]),
    when it states one. *)
Definition documented (m : t) : option Z :=
  match m with
  | FRAME_MIX => Some 11213
  | NO_FRAME_BLEND => Some 11211
  | PIXEL_MOTION => Some 11212
  end.

(** The members in declaration order. *)
Definition members : list t :=
  [FRAME_MIX; NO_FRAME_BLEND; PIXEL_MOTION].

End FrameBlendingType.

Module LayerQuality.

Inductive t : Set :=
| BEST
| DRAFT
| WIREFRAME.

(** The initialiser of each member. *)
Definition code (m : t) : Z :=
  match m with
  | BEST => 10212
  | DRAFT => 10210
  | WIREFRAME => 10211
  end.

(** The value a member's doc comment states ([@remarks Integer value: N]),
    when it states one. *)
Definition documented (m : t) : option Z :=
  match m with
  | BEST => Some 10212
  | DRAFT => Some 10210
  | WIREFRAME => Some 10211
  end.

(** The members in declaration order. *)
Definition members : list t :=
  [BEST; DRAFT; WIREFRAME].

End LayerQuality.

Module LayerSamplingQuality.

Inductive t : Set :=
| BICUBIC
| BILINEAR.

(** The initialiser of each member. *)
Definition code (m : t) : Z :=
  match m with
  | BICUBIC => 10201
  | BILINEAR => 10202
  end.

(** The value a member's doc comment states ([@remarks Integer value: N]),
    when it states one. *)
Definition documented (m : t) : option Z :=
  match m with
  | BICUBIC => Some 10201
  | BILINEAR => Some 10202
  end.

(** The members in declaration order. *)
Definition members : list t :=
  [BICUBIC; BILINEAR].

End LayerSamplingQuality.

Module LightType.

Inductive t : Set :=
| AMBIENT
| PARALLEL
| POINT
| SPOT.

(** The initialiser of each member. *)
Definition code (m : t) : Z :=
  match m with
  | AMBIENT => 4412
  | PARALLEL => 4414
  | POINT => 4411
  | SPOT => 4413
  end.

(** The value a member's doc comment states ([@remarks Integer value: N]),
    when it states one. *)
Definition documented (m : t) : option Z :=
  match m with
  | AMBIENT => Some 4412
  | PARALLEL => Some 4414
  | POINT => Some 4411
  | SPOT => Some 4413
  end.

(** The members in declaration order. *)
Definition members : list t :=
  [AMBIENT; PARALLEL; POINT; SPOT].

End LightType.

Module TrackMatteType.

Inductive t : Set :=
| ALPHA
| ALPHA_INVERTED
| LUMA
| LUMA_INVERTED
| NO_TRACK_MATTE.

(** The initialiser of each member. *)
Definition code (m : t) : Z :=
  match m with
  | ALPHA => 11312
  | ALPHA_INVERTED => 11313
  | LUMA => 11314
  | LUMA_INVERTED => 11315
  | NO_TRACK_MATTE => 11311
  end.

(** The value a member's doc comment states ([@remarks Integer value: N]),
    when it states one. *)
Definition documented (m : t) : option Z :=
  match m with
  | ALPHA => Some 11312
  | ALPHA_INVERTED => Some 11313
  | LUMA => Some 11314
  | LUMA_INVERTED => Some 11315
  | NO_TRACK_MATTE => Some 11311
  end.

(** The members in declaration order. *)
Definition members : list t :=
  [ALPHA; ALPHA_INVERTED; LUMA; LUMA_INVERTED; NO_TRACK_MATTE].

End TrackMatteType.

(** A member of one of the seven enumerations, tagged with its enumeration. *)
Inductive layer_enum : Set :=
| EAutoOrientType | EBlendingMode | EFrameBlendingType | ELayerQuality
| ELayerSamplingQuality | ELightType | ETrackMatteType.

Inductive enum_member : Set :=
| InAutoOrientType (m : AutoOrientType.t)
| InBlendingMode (m : BlendingMode.t)
| InFrameBlendingType (m : FrameBlendingType.t)
| InLayerQuality (m : LayerQuality.t)
| InLayerSamplingQuality (m : LayerSamplingQuality.t)
| InLightType (m : LightType.t)
| InTrackMatteType (m : TrackMatteType.t).

Definition enum_of (m : enum_member) : layer_enum :=
  match m with
  | InAutoOrientType _ => EAutoOrientType
  | InBlendingMode _ => EBlendingMode
  | InFrameBlendingType _ => EFrameBlendingType
  | InLayerQuality _ => ELayerQuality
  | InLayerSamplingQuality _ => ELayerSamplingQuality
  | InLightType _ => ELightType
  | InTrackMatteType _ => ETrackMatteType
  end.

Definition member_code (m : enum_member) : Z :=
  match m with
  | InAutoOrientType x => AutoOrientType.code x
  | InBlendingMode x => BlendingMode.code x
  | InFrameBlendingType x => FrameBlendingType.code x
  | InLayerQuality x => LayerQuality.code x
  | InLayerSamplingQuality x => LayerSamplingQuality.code x
  | InLightType x => LightType.code x
  | InTrackMatteType x => TrackMatteType.code x
  end.

Definition member_documented (m : enum_member) : option Z :=
  match m with
  | InAutoOrientType x => AutoOrientType.documented x
  | InBlendingMode x => BlendingMode.documented x
  | InFrameBlendingType x => FrameBlendingType.documented x
  | InLayerQuality x => LayerQuality.documented x
  | InLayerSamplingQuality x => LayerSamplingQuality.documented x
  | InLightType x => LightType.documented x
  | InTrackMatteType x => TrackMatteType.documented x
  end.

(** Every member of every enumeration, in source order. *)
Definition all_members : list enum_member :=
  map InAutoOrientType AutoOrientType.members
  ++ map InBlendingMode BlendingMode.members
  ++ map InFrameBlendingType FrameBlendingType.members
  ++ map InLayerQuality LayerQuality.members
  ++ map InLayerSamplingQuality LayerSamplingQuality.members
  ++ map InLightType LightType.members
  ++ map InTrackMatteType TrackMatteType.members.

(** [[number, number]] and [[number, number, number]] *)
Definition Point : tuple := [TNumber; TNumber].
Definition TwoDPoint : tuple := [TNumber; TNumber].
Definition ThreeDPoint : tuple := [TNumber; TNumber; TNumber].

(** ** The classes and interfaces of the layer module

    Each [declare class] and [declare interface] of the module with its
    [extends] clause and the members of its body, in source order.  Type
    annotations are kept as they are written. *)

Module LayerModule.

Local Open Scope string_scope.

Inductive member : Type :=
| Property (name : string) (readonly : bool) (type : string)
| Method (name : string) (params : list (string * bool * string)) (returns : string)
| IndexSignature (readonly : bool) (key : string) (type : string).

(** A parameter is its name, whether it is optional ([?]) and its type. *)
Definition param (name : string) (optional : bool) (type : string)
  : string * bool * string := (name, optional, type).

Record declaration : Type := {
  d_name : string;
  d_class : bool;
  d_extends : option string;
  d_members : list member
}.

Definition PropertyGroup : declaration :=
  {| d_name := "PropertyGroup";
     d_class := true;
     d_extends := None;
     d_members := [] |}.

Definition Collection : declaration :=
  {| d_name := "Collection";
     d_class := true;
     d_extends := None;
     d_members := [] |}.

Definition CompItem : declaration :=
  {| d_name := "CompItem";
     d_class := true;
     d_extends := None;
     d_members := [] |}.

Definition AVItem : declaration :=
  {| d_name := "AVItem";
     d_class := true;
     d_extends := None;
     d_members := [] |}.

Definition MarkerValueProperty : declaration :=
  {| d_name := "MarkerValueProperty";
     d_class := true;
     d_extends := None;
     d_members := [] |}.

Definition MaskPropertyGroup : declaration :=
  {| d_name := "MaskPropertyGroup";
     d_class := true;
     d_extends := None;
     d_members := [] |}.

Definition PropertyBase : declaration :=
  {| d_name := "PropertyBase";
     d_class := true;
     d_extends := None;
     d_members := [] |}.

Definition Viewer : declaration :=
  {| d_name := "Viewer";
     d_class := true;
     d_extends := None;
     d_members := [] |}.

Definition TextDocument : declaration :=
  {| d_name := "TextDocument";
     d_class := true;
     d_extends := None;
     d_members := [] |}.

Definition OneDProperty : declaration :=
  {| d_name := "OneDProperty";
     d_class := false;
     d_extends := None;
     d_members := [] |}.

Definition TwoDOrThreeDProperty : declaration :=
  {| d_name := "TwoDOrThreeDProperty";
     d_class := false;
     d_extends := None;
     d_members := [] |}.

Definition ThreeDProperty : declaration :=
  {| d_name := "ThreeDProperty";
     d_class := false;
     d_extends := None;
     d_members := [] |}.

Definition TextDocumentProperty : declaration :=
  {| d_name := "TextDocumentProperty";
     d_class := false;
     d_extends := None;
     d_members := [] |}.

Definition _TransformGroup : declaration :=
  {| d_name := "_TransformGroup";
     d_class := false;
     d_extends := Some "PropertyGroup";
     d_members := [
       Property "anchorPoint" true "TwoDOrThreeDProperty";
       Property "position" true "TwoDOrThreeDProperty";
       Property "xPosition" true "OneDProperty";
       Property "yPosition" true "OneDProperty";
       Property "zPosition" true "OneDProperty";
       Property "scale" true "TwoDOrThreeDProperty";
       Property "orientation" true "ThreeDProperty";
       Property "rotation" true "OneDProperty";
       Property "xRotation" true "OneDProperty";
       Property "yRotation" true "OneDProperty";
       Property "zRotation" true "OneDProperty";
       Property "opacity" true "OneDProperty";
       Property "pointOfInterest" true "ThreeDProperty" ] |}.

Definition _AudioGroup : declaration :=
  {| d_name := "_AudioGroup";
     d_class := false;
     d_extends := Some "PropertyGroup";
     d_members := [
       Property "audioLevels" true "TwoDOrThreeDProperty" ] |}.

Definition _CameraOptionsGroup : declaration :=
  {| d_name := "_CameraOptionsGroup";
     d_class := false;
     d_extends := Some "PropertyGroup";
     d_members := [
       Property "zoom" true "OneDProperty";
       Property "depthOfField" true "OneDProperty";
       Property "focusDistance" true "OneDProperty";
       Property "aperture" true "OneDProperty";
       Property "blurLevel" true "OneDProperty" ] |}.

Definition _GeometryOptionsGroup : declaration :=
  {| d_name := "_GeometryOptionsGroup";
     d_class := false;
     d_extends := Some "PropertyGroup";
     d_members := [
       Property "curvature" true "OneDProperty";
       Property "segments" true "OneDProperty";
       Property "bevelDepth" true "OneDProperty";
       Property "holeBevelDepth" true "OneDProperty";
       Property "extrusionDepth" true "OneDProperty" ] |}.

Definition _LayerStyles : declaration :=
  {| d_name := "_LayerStyles";
     d_class := false;
     d_extends := Some "PropertyGroup";
     d_members := [
       Property "blendingOptions" true "PropertyGroup";
       Property "dropShadow" true "PropertyGroup";
       Property "innerShadow" true "PropertyGroup";
       Property "outerGlow" true "PropertyGroup";
       Property "innerGlow" true "PropertyGroup";
       Property "bevelAndEmboss" true "PropertyGroup";
       Property "satin" true "PropertyGroup";
       Property "colorOverlay" true "PropertyGroup";
       Property "gradientOverlay" true "PropertyGroup";
       Property "stroke" true "PropertyGroup" ] |}.

Definition _LightOptionsGroup : declaration :=
  {| d_name := "_LightOptionsGroup";
     d_class := false;
     d_extends := Some "PropertyGroup";
     d_members := [
       Property "intensity" true "OneDProperty";
       Property "color" true "ThreeDProperty";
       Property "coneAngle" true "OneDProperty";
       Property "coneFeather" true "OneDProperty";
       Property "shadowDarkness" true "OneDProperty";
       Property "shadowDiffusion" true "OneDProperty" ] |}.

Definition _MaterialOptionsGroup : declaration :=
  {| d_name := "_MaterialOptionsGroup";
     d_class := false;
     d_extends := Some "PropertyGroup";
     d_members := [
       Property "castsShadows" true "OneDProperty";
       Property "lightTransmission" true "OneDProperty";
       Property "acceptsShadows" true "OneDProperty";
       Property "acceptsLights" true "OneDProperty";
       Property "appearsInReflections" true "OneDProperty";
       Property "ambient" true "OneDProperty";
       Property "diffuse" true "OneDProperty";
       Property "specular" true "OneDProperty";
       Property "shininess" true "OneDProperty";
       Property "metal" true "OneDProperty";
       Property "reflectionIntensity" true "OneDProperty";
       Property "reflectionSharpness" true "OneDProperty";
       Property "reflectionRolloff" true "OneDProperty";
       Property "transparency" true "OneDProperty";
       Property "transparencyRolloff" true "OneDProperty";
       Property "indexOfRefraction" true "OneDProperty" ] |}.

Definition _TextProperties : declaration :=
  {| d_name := "_TextProperties";
     d_class := false;
     d_extends := Some "PropertyGroup";
     d_members := [
       Property "sourceText" true "TextDocumentProperty";
       Property "pathOptions" true "PropertyGroup";
       Property "moreOptions" true "PropertyGroup";
       Property "animators" true "PropertyGroup" ] |}.

Definition Layer : declaration :=
  {| d_name := "Layer";
     d_class := true;
     d_extends := Some "PropertyGroup";
     d_members := [
       Property "id" true "number";
       Property "index" true "LayerIndex<number>";
       Property "time" true "number";
       Property "hasVideo" true "boolean";
       Property "active" true "boolean";
       Property "nullLayer" true "boolean";
       Property "selectedProperties" true "_PropertyClasses[]";
       Property "containingComp" true "CompItem";
       Property "isNameSet" true "boolean";
       Property "name" false "string";
       Property "parent" false "Layer | null";
       Property "startTime" false "TimeRange";
       Property "stretch" false "number";
       Property "inPoint" false "TimeRange";
       Property "outPoint" false "TimeRange";
       Property "enabled" false "boolean";
       Property "solo" false "boolean";
       Property "shy" false "boolean";
       Property "locked" false "boolean";
       Property "comment" false "string";
       Property "label" false "LabelIndex";
       Property "autoOrient" false "AutoOrientType";
       Method "moveToBeginning" [] "void";
       Method "moveToEnd" [] "void";
       Method "moveAfter" [param "layer" false "Layer"] "void";
       Method "moveBefore" [param "layer" false "Layer"] "void";
       Method "duplicate" [] "Layer";
       Method "copyToComp" [param "intoComp" false "CompItem"] "void";
       Method "doSceneEditDetection" [param "applyOptions" false "any"] "number[]";
       Method "activeAtTime" [param "time" false "number"] "boolean";
       Method "setParentWithJump" [param "newParent" true "Layer"] "void";
       Method "applyPreset" [param "presetName" false "File"] "void";
       Property "marker" true "MarkerValueProperty";
       Property "transform" true "_TransformGroup";
       Property "anchorPoint" true "TwoDOrThreeDProperty";
       Property "position" true "TwoDOrThreeDProperty";
       Property "xPosition" true "OneDProperty";
       Property "yPosition" true "OneDProperty";
       Property "zPosition" true "OneDProperty";
       Property "scale" true "TwoDOrThreeDProperty";
       Property "orientation" true "ThreeDProperty";
       Property "rotation" true "OneDProperty";
       Property "xRotation" true "OneDProperty";
       Property "yRotation" true "OneDProperty";
       Property "zRotation" true "OneDProperty";
       Property "opacity" true "OneDProperty";
       Property "pointOfInterest" true "ThreeDProperty" ] |}.

Definition AVLayer : declaration :=
  {| d_name := "AVLayer";
     d_class := true;
     d_extends := Some "Layer";
     d_members := [
       Property "source" true "any";
       Property "isNameFromSource" true "boolean";
       Property "height" true "number";
       Property "width" true "number";
       Property "canSetCollapseTransformation" true "boolean";
       Property "frameBlending" true "boolean";
       Property "canSetTimeRemapEnabled" true "boolean";
       Property "hasAudio" true "boolean";
       Property "audioActive" true "boolean";
       Property "isTrackMatte" true "boolean";
       Property "hasTrackMatte" true "boolean";
       Property "trackMatteLayer" true "AVLayer | null";
       Property "audioEnabled" false "boolean";
       Property "motionBlur" false "boolean";
       Property "effectsActive" false "boolean";
       Property "adjustmentLayer" false "boolean";
       Property "environmentLayer" false "boolean";
       Property "guideLayer" false "boolean";
       Property "threeDLayer" false "boolean";
       Property "threeDPerChar" false "boolean";
       Property "collapseTransformation" false "boolean";
       Property "frameBlendingType" false "FrameBlendingType";
       Property "timeRemapEnabled" false "boolean";
       Property "blendingMode" false "BlendingMode";
       Property "preserveTransparency" false "boolean";
       Property "samplingQuality" false "LayerSamplingQuality";
       Property "trackMatteType" false "TrackMatteType";
       Property "quality" false "LayerQuality";
       Method "audioActiveAtTime" [param "time" false "number"] "boolean";
       Method "calculateTransformFromPoints"
          [param "pointTopLeft" false "[number, number, number]";
           param "pointTopRight" false "typeof pointTopLeft";
           param "pointBottomRight" false "typeof pointTopLeft"]
          "object";
       Method "sourcePointToComp" [param "point" false "[number, number]"] "[number, number]";
       Method "compPointToSource" [param "point" false "[number, number]"] "[number, number]";
       Method "openInViewer" [] "Viewer | null";
       Method "replaceSource"
          [param "newSource" false "AVItem";
           param "fixExpressions" false "boolean"]
          "void";
       Method "sourceRectAtTime"
          [param "timeT" false "number";
           param "extents" false "boolean"]
          "{ top: number; left: number; width: number; height: number }";
       Method "addToMotionGraphicsTemplate" [param "comp" false "CompItem"] "boolean";
       Method "addToMotionGraphicsTemplateAs"
          [param "comp" false "CompItem";
           param "name" false "string"]
          "boolean";
       Method "canAddToMotionGraphicsTemplate" [param "comp" false "CompItem"] "boolean";
       Method "removeTrackMatte" [] "void";
       Method "setTrackMatte"
          [param "trackMatteLayer" false "AVLayer | null";
           param "trackMatteType" false "TrackMatteType"]
          "void";
       Property "timeRemap" true "OneDProperty";
       Property "mask" true "MaskPropertyGroup";
       Property "effect" true "PropertyGroup";
       Property "layerStyle" true "_LayerStyles";
       Property "geometryOption" true "_GeometryOptionsGroup";
       Property "materialOption" true "_MaterialOptionsGroup";
       Property "audio" true "_AudioGroup" ] |}.

Definition CameraLayer : declaration :=
  {| d_name := "CameraLayer";
     d_class := true;
     d_extends := Some "Layer";
     d_members := [
       Property "cameraOption" true "_CameraOptionsGroup" ] |}.

Definition LightLayer : declaration :=
  {| d_name := "LightLayer";
     d_class := true;
     d_extends := Some "Layer";
     d_members := [
       Property "lightOption" true "_LightOptionsGroup";
       Property "lightType" false "LightType" ] |}.

Definition ShapeLayer : declaration :=
  {| d_name := "ShapeLayer";
     d_class := true;
     d_extends := Some "AVLayer";
     d_members := [] |}.

Definition TextLayer : declaration :=
  {| d_name := "TextLayer";
     d_class := true;
     d_extends := Some "AVLayer";
     d_members := [
       Property "source" true "null";
       Property "text" true "_TextProperties";
       Property "sourceText" true "TextDocumentProperty" ] |}.

Definition ThreeDModelLayer : declaration :=
  {| d_name := "ThreeDModelLayer";
     d_class := true;
     d_extends := Some "AVLayer";
     d_members := [] |}.

Definition LayerCollection : declaration :=
  {| d_name := "LayerCollection";
     d_class := true;
     d_extends := Some "Collection";
     d_members := [
       IndexSignature true "number" "Layer";
       Method "add"
          [param "item" false "AVItem";
           param "duration" true "DurationRange"]
          "AVLayer";
       Method "addNull" [param "duration" true "DurationRange"] "AVLayer";
       Method "addSolid"
          [param "color" false "ThreeDColorValue";
           param "name" false "string";
           param "width" false "PixelDimension";
           param "height" false "PixelDimension";
           param "pixelAspect" false "number";
           param "duration" true "DurationRange"]
          "AVLayer";
       Method "addVerticalBoxText"
          [param "width" true "PixelDimension";
           param "height" true "PixelDimension"]
          "TextLayer";
       Method "addVerticalText" [param "sourceText" true "string"] "TextLayer";
       Method "addBoxText"
          [param "size" false "[PixelDimension, PixelDimension]";
           param "sourceText" true "string | TextDocument"]
          "TextLayer";
       Method "addText"
          [param "sourceText" true "string | TextDocument"]
          "TextLayer";
       Method "addCamera"
          [param "name" false "string";
           param "centerPoint" false "[number, number]"]
          "CameraLayer";
       Method "addLight"
          [param "name" false "string";
           param "centerPoint" false "[number, number]"]
          "LightLayer";
       Method "addShape" [] "ShapeLayer";
       Method "byName" [param "name" false "string"] "Layer | null";
       Method "precompose"
          [param "layerIndicies" false "number[]";
           param "name" false "string";
           param "moveAllAttributes" true "boolean"]
          "CompItem" ] |}.

(** The declarations in source order. *)
Definition declarations : list declaration :=
  [PropertyGroup; Collection; CompItem; AVItem; MarkerValueProperty;
   MaskPropertyGroup; PropertyBase; Viewer; TextDocument; OneDProperty;
   TwoDOrThreeDProperty; ThreeDProperty; TextDocumentProperty;
   _TransformGroup; _AudioGroup; _CameraOptionsGroup;
   _GeometryOptionsGroup; _LayerStyles; _LightOptionsGroup;
   _MaterialOptionsGroup; _TextProperties; Layer; AVLayer; CameraLayer;
   LightLayer; ShapeLayer; TextLayer; ThreeDModelLayer; LayerCollection].

Definition member_name (m : member) : option string :=
  match m with
  | Property n _ _ => Some n
  | Method n _ _ => Some n
  | IndexSignature _ _ _ => None
  end.

Definition find_decl (n : string) : option declaration :=
  find (fun d => String.eqb (d_name d) n) declarations.

(** The declaration named [n] followed by the declarations it inherits
    from, nearest first, following [extends] for at most [fuel] steps; empty
    when [n] is not declared. *)
Fixpoint chain (fuel : nat) (n : string) : list declaration :=
  match fuel with
  | O => []
  | S fuel' =>
      match find_decl n with
      | None => []
      | Some d =>
          d :: match d_extends d with
               | Some p => chain fuel' p
               | None => []
               end
      end
  end.

Definition heritage (n : string) : list declaration :=
  chain (length declarations) n.

(** [c] is [a] or inherits from it. *)
Definition inherits (c a : string) : bool :=
  existsb (fun d => String.eqb (d_name d) a) (heritage c).

Definition own_member (d : declaration) (n : string) : option member :=
  find (fun m => match member_name m with
                 | Some k => String.eqb k n
                 | None => false
                 end) (d_members d).

(** The member named [n] that an instance of [c] has: the nearest
    declaration of it along the heritage of [c]. *)
Fixpoint resolve_in (ds : list declaration) (n : string) : option member :=
  match ds with
  | [] => None
  | d :: rest =>
      match own_member d n with
      | Some m => Some m
      | None => resolve_in rest n
      end
  end.

Definition resolve (c n : string) : option member :=
  resolve_in (heritage c) n.

End LayerModule.

(** ** Auxiliary notions for the proofs *)

(** The unions of numeric literals, the shape [NumericRange] produces. *)
Inductive literal_union : ty -> Prop :=
| lu_never : literal_union TNever
| lu_lit q : literal_union (TNumLit q)
| lu_union a b : literal_union a -> literal_union b -> literal_union (TUnion a b).

#[local] Instance member_eq_dec : EqDecision LayerModule.member.
Proof. solve_decision. Defined.

(** Whether the unfolding at which [ARR] has length [j] joins [j] to [ACC]:
    [ARR[START]] is then an element of the tuple rather than [undefined]. *)
Definition joins (START j : Z) : bool :=
  if 0 <=? START then START <? j else 0 <? j.

(** * Properties *)

(** ** Assignability of literals and unions *)

Section Assignability.

Lemma Qeq_bool_inject_Z (a b : Z) :
  Qeq_bool (inject_Z a) (inject_Z b) = (a =? b).
Proof.
  unfold Qeq_bool, inject_Z; simpl. now rewrite !Z.mul_1_r.
Qed.

Lemma Qeq_inject_Z (a b : Z) : (inject_Z a == inject_Z b)%Q <-> a = b.
Proof.
  unfold Qeq, inject_Z; simpl. lia.
Qed.

Lemma accepts_never q : accepts TNever q = false.
Proof. reflexivity. Qed.

Lemma accepts_numlit p q : accepts (TNumLit p) q = Qeq_bool q p.
Proof. reflexivity. Qed.

Lemma accepts_union a b q : accepts (TUnion a b) q = accepts a q || accepts b q.
Proof. reflexivity. Qed.

Lemma accepts_lit_true n q : accepts (lit n) q = true <-> (q == inject_Z n)%Q.
Proof. unfold lit. rewrite accepts_numlit. apply Qeq_bool_iff. Qed.

Lemma accepts_lit_Z n m : accepts (lit n) (inject_Z m) = (m =? n).
Proof. unfold lit. rewrite accepts_numlit. apply Qeq_bool_inject_Z. Qed.

Lemma accepts_branded name q : accepts (branded name) q = false.
Proof. reflexivity. Qed.

(** [never] is assignable to every type. *)
Lemma assignable_never_l T : assignable TNever T = true.
Proof.
  induction T; simpl; auto.
  now rewrite IHT1, IHT2.
Qed.

(** A union is assignable exactly when both of its sides are. *)
Lemma assignable_union_l a b T :
  assignable (TUnion a b) T = assignable a T && assignable b T.
Proof.
  induction T; simpl; auto.
  rewrite IHT1, IHT2.
  destruct (assignable a T1), (assignable a T2), (assignable b T1); reflexivity.
Qed.

(** A union of literals is assignable to [T] as soon as [T] accepts every
    literal the union accepts. *)
Lemma literal_union_assignable S T :
  literal_union S ->
  (forall q, accepts S q = true -> accepts T q = true) ->
  assignable S T = true.
Proof.
  induction 1 as [|p|a b Ha IHa Hb IHb]; intros Hacc.
  - apply assignable_never_l.
  - apply Hacc. rewrite accepts_numlit. apply Qeq_bool_iff. reflexivity.
  - rewrite assignable_union_l. apply andb_true_iff. split.
    + apply IHa. intros q Hq. apply Hacc. rewrite accepts_union, Hq. reflexivity.
    + apply IHb. intros q Hq. apply Hacc. rewrite accepts_union, Hq.
      apply orb_true_r.
Qed.

Lemma literal_union_refl T : literal_union T -> assignable T T = true.
Proof. intros H. apply literal_union_assignable; auto. Qed.

End Assignability.

(** ** The unfolding of [NumericRange] *)

Section Unfolding.

Variables START END : Z.

Lemma length_extends_END k :
  extends (tuple_length (replicate k (lit 1))) (lit END) = (Z.of_nat k =? END).
Proof.
  unfold extends, tuple_length, lit. rewrite length_replicate. simpl.
  apply Qeq_bool_inject_Z.
Qed.

Lemma index_extends_undefined k :
  extends (tuple_index (replicate k (lit 1)) START) TUndefined
  = negb (joins START (Z.of_nat k)).
Proof.
  unfold tuple_index, joins. destruct (0 <=? START) eqn:Hs.
  - apply Z.leb_le in Hs.
    destruct (replicate k (lit 1) !! Z.to_nat START) as [t|] eqn:Hl.
    + apply lookup_replicate in Hl as [-> Hlt].
      replace (START <? Z.of_nat k) with true by (symmetry; apply Z.ltb_lt; lia).
      reflexivity.
    + apply lookup_replicate_None in Hl.
      replace (START <? Z.of_nat k) with false by (symmetry; apply Z.ltb_ge; lia).
      reflexivity.
  - destruct k as [|k]; reflexivity.
Qed.

(** The defining equation of the alias. *)
Lemma NumericRange_fuel_eq fuel ARR ACC :
  NumericRange_fuel (S fuel) START END ARR ACC =
  if extends (tuple_length ARR) (lit END)
  then Some (TUnion (TUnion ACC (lit START)) (lit END))
  else NumericRange_fuel fuel START END (ARR ++ [lit 1])
         (if extends (tuple_index ARR START) TUndefined
          then ACC else TUnion ACC (tuple_length ARR)).
Proof. reflexivity. Qed.

(** More fuel never changes a result. *)
Lemma NumericRange_fuel_S fuel : forall ARR ACC T,
  NumericRange_fuel fuel START END ARR ACC = Some T ->
  NumericRange_fuel (S fuel) START END ARR ACC = Some T.
Proof.
  induction fuel as [|fuel IH]; intros ARR ACC T H; [discriminate|].
  rewrite NumericRange_fuel_eq in H. rewrite NumericRange_fuel_eq.
  destruct (extends (tuple_length ARR) (lit END)); [exact H|].
  apply IH, H.
Qed.

Lemma NumericRange_fuel_le fuel fuel' ARR ACC T :
  (fuel <= fuel')%nat ->
  NumericRange_fuel fuel START END ARR ACC = Some T ->
  NumericRange_fuel fuel' START END ARR ACC = Some T.
Proof.
  induction 1; auto using NumericRange_fuel_S.
Qed.

(** Two unfoldings that both finish produce the same type. *)
Lemma NumericRange_fuel_agree f1 f2 ARR ACC T1 T2 :
  NumericRange_fuel f1 START END ARR ACC = Some T1 ->
  NumericRange_fuel f2 START END ARR ACC = Some T2 ->
  T1 = T2.
Proof.
  intros H1 H2. destruct (Nat.le_ge_cases f1 f2) as [Hle|Hle].
  - apply (NumericRange_fuel_le _ _ _ _ _ Hle) in H1. congruence.
  - apply (NumericRange_fuel_le _ _ _ _ _ Hle) in H2. congruence.
Qed.

(** Once the tuple is longer than [END] the base case is out of reach: the
    unfolding never finishes. *)
Lemma NumericRange_fuel_diverges fuel : forall ARR ACC,
  END < Z.of_nat (length ARR) ->
  NumericRange_fuel fuel START END ARR ACC = None.
Proof.
  induction fuel as [|fuel IH]; intros ARR ACC Hlen; [reflexivity|].
  rewrite NumericRange_fuel_eq.
  replace (extends (tuple_length ARR) (lit END)) with (Z.of_nat (length ARR) =? END)
    by (symmetry; apply Qeq_bool_inject_Z).
  replace (Z.of_nat (length ARR) =? END) with false by (symmetry; apply Z.eqb_neq; lia).
  apply IH. rewrite length_app. simpl. lia.
Qed.

(** The loop from a tuple of [k] ones, [n] unfoldings before [END]. *)
Lemma NumericRange_fuel_loop n : forall k ACC,
  Z.of_nat k + Z.of_nat n = END ->
  exists T,
    NumericRange_fuel (S n) START END (replicate k (lit 1)) ACC = Some T
    /\ (literal_union ACC -> literal_union T)
    /\ forall q, accepts T q = true <->
         (accepts ACC q = true \/ (q == inject_Z START)%Q \/ (q == inject_Z END)%Q
          \/ exists j, Z.of_nat k <= j < END /\ joins START j = true
                       /\ (q == inject_Z j)%Q).
Proof.
  induction n as [|n IH]; intros k ACC Hk.
  - exists (TUnion (TUnion ACC (lit START)) (lit END)). split; [|split].
    + rewrite NumericRange_fuel_eq, length_extends_END.
      replace (Z.of_nat k =? END) with true by (symmetry; apply Z.eqb_eq; lia).
      reflexivity.
    + intros H. repeat constructor; auto.
    + intros q. rewrite !accepts_union, !orb_true_iff, !accepts_lit_true.
      split.
      * intros [[H|H]|H]; auto.
      * intros [H|[H|[H|(j & Hj & _)]]]; auto. lia.
  - destruct (IH (S k) (if extends (tuple_index (replicate k (lit 1)) START) TUndefined
                        then ACC else TUnion ACC (tuple_length (replicate k (lit 1)))))
      as (T & HT & Hlu & Hacc); [lia|].
    exists T. split; [|split].
    + rewrite NumericRange_fuel_eq.
      rewrite length_extends_END.
      replace (Z.of_nat k =? END) with false by (symmetry; apply Z.eqb_neq; lia).
      rewrite <- replicate_S_end. exact HT.
    + intros H. apply Hlu.
      destruct (extends (tuple_index (replicate k (lit 1)) START) TUndefined); auto.
      constructor; auto. constructor.
    + intros q. rewrite Hacc. clear Hacc HT Hlu.
      rewrite index_extends_undefined.
      destruct (joins START (Z.of_nat k)) eqn:Hj; simpl.
      * unfold tuple_length. rewrite length_replicate, accepts_union, orb_true_iff,
          accepts_lit_true.
        split.
        -- intros [[H|H]|[H|[H|(j & Hr & Hjj & Hq)]]]; auto.
           ++ right; right; right. exists (Z.of_nat k). split; [lia|]. auto.
           ++ right; right; right. exists j. split; [lia|]. auto.
        -- intros [H|[H|[H|(j & Hr & Hjj & Hq)]]]; auto.
           destruct (Z.eq_dec j (Z.of_nat k)) as [->|Hne]; auto.
           right; right; right. exists j. split; [lia|]. auto.
      * split.
        -- intros [H|[H|[H|(j & Hr & Hjj & Hq)]]]; auto.
           right; right; right. exists j. split; [lia|]. auto.
        -- intros [H|[H|[H|(j & Hr & Hjj & Hq)]]]; auto.
           destruct (Z.eq_dec j (Z.of_nat k)) as [->|Hne]; [congruence|].
           right; right; right. exists j. split; [lia|]. auto.
Qed.

End Unfolding.

(** ** What [NumericRange] produces *)

Section Produced.

(** A negative [END] is never the length of a tuple: no unfolding finishes. *)
Lemma NumericRange_diverges START END fuel :
  END < 0 -> NumericRange_fuel fuel START END [] TNever = None.
Proof.
  intros H. apply NumericRange_fuel_diverges. simpl. lia.
Qed.

Lemma NumericRange_members START END :
  0 <= END ->
  exists T,
    NumericRange START END = Some T
    /\ literal_union T
    /\ forall q, accepts T q = true <->
         ((q == inject_Z START)%Q \/ (q == inject_Z END)%Q
          \/ exists j, 0 <= j < END /\ joins START j = true /\ (q == inject_Z j)%Q).
Proof.
  intros HEND.
  destruct (NumericRange_fuel_loop START END (Z.to_nat END) 0 TNever)
    as (T & HT & Hlu & Hacc); [simpl; lia|].
  exists T. split; [exact HT|]. split; [apply Hlu; constructor|].
  intros q. rewrite Hacc, accepts_never. simpl (Z.of_nat 0).
  split.
  - intros [H|H]; [discriminate|exact H].
  - intros H. right. exact H.
Qed.

(** The fuel of [NumericRange] is enough: whatever an unfolding produces,
    [NumericRange] produces. *)
Lemma NumericRange_complete START END fuel T :
  NumericRange_fuel fuel START END [] TNever = Some T ->
  NumericRange START END = Some T.
Proof.
  intros H. destruct (Z.lt_ge_cases END 0) as [Hneg|Hpos].
  - rewrite NumericRange_diverges in H by exact Hneg. discriminate.
  - destruct (NumericRange_members START END Hpos) as (T' & HT' & _).
    rewrite HT'. f_equal.
    exact (NumericRange_fuel_agree _ _ _ _ _ _ _ _ HT' H).
Qed.

Lemma NumericRange_enough START END fuel T :
  NumericRange START END = Some T ->
  (Z.to_nat END < fuel)%nat ->
  NumericRange_fuel fuel START END [] TNever = Some T.
Proof.
  intros H Hf. apply (NumericRange_fuel_le START END (S (Z.to_nat END))); [lia|exact H].
Qed.

Lemma NumericRange_produces START END :
  0 <= END -> exists T, NumericRange START END = Some T.
Proof.
  intros H. destruct (NumericRange_members START END H) as (T & HT & _).
  exists T. exact HT.
Qed.

(** Natural bounds in order: the closed interval. *)
Lemma NumericRange_interval lo hi :
  0 <= lo <= hi ->
  exists T,
    NumericRange lo hi = Some T
    /\ literal_union T
    /\ forall q, accepts T q = true <->
         exists n, lo <= n <= hi /\ (q == inject_Z n)%Q.
Proof.
  intros Hb. destruct (NumericRange_members lo hi) as (T & HT & Hlu & Hacc); [lia|].
  exists T. split; [exact HT|]. split; [exact Hlu|].
  intros q. rewrite Hacc. unfold joins.
  replace (0 <=? lo) with true by (symmetry; apply Z.leb_le; lia).
  split.
  - intros [H|[H|(j & Hj & Hlt & Hq)]].
    + exists lo. split; [lia|exact H].
    + exists hi. split; [lia|exact H].
    + apply Z.ltb_lt in Hlt. exists j. split; [lia|exact Hq].
  - intros (n & Hn & Hq).
    destruct (Z.eq_dec n lo) as [->|Hlo]; [left; exact Hq|].
    destruct (Z.eq_dec n hi) as [->|Hhi]; [right; left; exact Hq|].
    right; right. exists n. split; [lia|]. split; [apply Z.ltb_lt; lia|exact Hq].
Qed.

(** Natural bounds in reverse order: the two bounds alone. *)
Lemma NumericRange_reversed lo hi :
  0 <= hi < lo ->
  exists T,
    NumericRange lo hi = Some T
    /\ literal_union T
    /\ forall q, accepts T q = true <->
         ((q == inject_Z lo)%Q \/ (q == inject_Z hi)%Q).
Proof.
  intros Hb. destruct (NumericRange_members lo hi) as (T & HT & Hlu & Hacc); [lia|].
  exists T. split; [exact HT|]. split; [exact Hlu|].
  intros q. rewrite Hacc. unfold joins.
  replace (0 <=? lo) with true by (symmetry; apply Z.leb_le; lia).
  split.
  - intros [H|[H|(j & Hj & Hlt & Hq)]]; auto.
    apply Z.ltb_lt in Hlt. lia.
  - intros [H|H]; auto.
Qed.

Lemma accepts_integer T (P : Z -> Prop) :
  (forall q, accepts T q = true <-> exists n, P n /\ (q == inject_Z n)%Q) ->
  forall m, accepts T (inject_Z m) = true <-> P m.
Proof.
  intros H m. rewrite H. split.
  - intros (n & Hn & Hq). apply (proj1 (Qeq_inject_Z m n)) in Hq. subst n. exact Hn.
  - intros Hm. exists m. split; [exact Hm|reflexivity].
Qed.

End Produced.

(** ** The reference algorithm *)

Section Reference.

Lemma spec_accumulate_loop upper n : forall counter result,
  counter + Z.of_nat n = upper ->
  exists R,
    spec_accumulate (S n) counter upper result = Some R
    /\ forall x, x ∈ R <-> (x ∈ result \/ counter <= x < upper).
Proof.
  induction n as [|n IH]; intros counter result Hc.
  - exists result. split.
    + simpl. rewrite decide_True by lia. reflexivity.
    + intros x. split; [auto|]. intros [H|H]; [exact H|lia].
  - destruct (IH (counter + 1) (result ∪ {[counter]})) as (R & HR & Hin); [lia|].
    exists R. split.
    + change (spec_accumulate (S (S n)) counter upper result) with
        (if decide (counter = upper) then Some result
         else spec_accumulate (S n) (counter + 1) upper (result ∪ {[counter]})).
      rewrite decide_False by lia. exact HR.
    + intros x. rewrite Hin, elem_of_union, elem_of_singleton. split.
      * intros [[H|H]|H]; [left; exact H|right; lia|right; lia].
      * intros [H|H]; [left; left; exact H|].
        destruct (Z.eq_dec x counter) as [Heq|Hne]; [left; right; exact Heq|].
        right. lia.
Qed.

(** On bounds in order the reference algorithm yields the closed interval. *)
Lemma spec_interval_members lower upper :
  lower <= upper ->
  exists R,
    spec_interval lower upper = Some R
    /\ forall x, x ∈ R <-> lower <= x <= upper.
Proof.
  intros Hb.
  destruct (spec_accumulate_loop upper (Z.to_nat (upper - lower)) lower ∅)
    as (R & HR & Hin); [lia|].
  exists (R ∪ {[lower]} ∪ {[upper]}). split.
  - unfold spec_interval. rewrite HR. reflexivity.
  - intros x. rewrite !elem_of_union, !elem_of_singleton, Hin.
    rewrite elem_of_empty. split.
    + intros [[[[]|H]|H]|H]; lia.
    + intros H. destruct (Z.eq_dec x upper) as [Heq|Hne]; [right; exact Heq|].
      left; left; right. lia.
Qed.

End Reference.

(** ** The range-constraint utility *)

(** C1, as stated, fails: with the negative lower bound of
    [NumericRange<-2, 2>] the bounds are in order, yet the produced type
    rejects [-1], whichever unfolding produced it. *)
Lemma NumericRange_negative_lower_bound :
  ~ (forall lo hi : Z, lo <= hi ->
       exists fuel T,
         NumericRange_fuel fuel lo hi [] TNever = Some T
         /\ forall n : Z, accepts T (inject_Z n) = true <-> lo <= n <= hi).
Proof.
  intros H. destruct (H (-2) 2) as (fuel & T & HT & Hacc); [lia|].
  apply NumericRange_complete in HT. vm_compute in HT.
  injection HT as <-.
  assert (Hin : -2 <= -1 <= 2) by lia.
  apply Hacc in Hin. vm_compute in Hin. discriminate.
Qed.

(** C1 (amended): for natural-number bounds [0 <= lo <= hi],
    [NumericRange<lo, hi>] is produced, by every unfolding deep enough, and
    accepts an integer [n] exactly when [lo <= n <= hi]; it accepts no
    number that is not an integer, rejects [lo - 1] and [hi + 1], and when
    [lo = hi] accepts [lo] alone. *)
Theorem NumericRange_closed_interval (lo hi : Z) :
  0 <= lo <= hi ->
  exists T,
    NumericRange lo hi = Some T
    /\ (forall fuel, (Z.to_nat hi < fuel)%nat ->
          NumericRange_fuel fuel lo hi [] TNever = Some T)
    /\ (forall n : Z, accepts T (inject_Z n) = true <-> lo <= n <= hi)
    /\ (forall q : Q, accepts T q = true -> exists n : Z, (q == inject_Z n)%Q)
    /\ accepts T (inject_Z (lo - 1)) = false
    /\ accepts T (inject_Z (hi + 1)) = false
    /\ (lo = hi -> forall q : Q, accepts T q = true <-> (q == inject_Z lo)%Q).
Proof.
  intros Hb. destruct (NumericRange_interval lo hi Hb) as (T & HT & _ & Hacc).
  pose proof (accepts_integer T (fun n => lo <= n <= hi) Hacc) as HZ.
  exists T.
  split; [exact HT|].
  split; [intros fuel Hf; apply NumericRange_enough; assumption|].
  split; [exact HZ|].
  split; [intros q Hq; apply Hacc in Hq as (n & _ & Hq); exists n; exact Hq|].
  split; [apply not_true_is_false; rewrite HZ; lia|].
  split; [apply not_true_is_false; rewrite HZ; lia|].
  intros Heq q. rewrite Hacc. split.
  - intros (n & Hn & Hq). replace lo with n by lia. exact Hq.
  - intros Hq. exists lo. split; [lia|exact Hq].
Qed.

Lemma NumericRange_closed_interval_witness :
  0 <= 2 <= 5 /\ exists T, NumericRange 2 5 = Some T
                            /\ accepts T (inject_Z 3) = true
                            /\ accepts T (inject_Z 6) = false.
Proof.
  split; [lia|].
  destruct (NumericRange_closed_interval 2 5) as (T & HT & _ & HZ & _ & _ & Hhi & _);
    [lia|].
  exists T. split; [exact HT|]. split; [|exact Hhi].
  apply HZ. lia.
Defined.

(** C2, as stated, fails on the same bounds: the reference algorithm of the
    specification puts [-1] in its result for [-2, 2], the type of
    [NumericRange<-2, 2>] rejects it. *)
Lemma NumericRange_differs_from_spec_interval :
  ~ (forall lo hi : Z, lo <= hi ->
       exists fuel T R,
         NumericRange_fuel fuel lo hi [] TNever = Some T
         /\ spec_interval lo hi = Some R
         /\ denotes T R).
Proof.
  intros H. destruct (H (-2) 2) as (fuel & T & R & HT & HR & Hden); [lia|].
  apply NumericRange_complete in HT. vm_compute in HT. injection HT as <-.
  destruct (spec_interval_members (-2) 2) as (R' & HR' & Hin); [lia|].
  rewrite HR in HR'. injection HR' as <-.
  assert (Hm : (-1) ∈ R) by (apply Hin; lia).
  assert (Hacc : exists n : Z, n ∈ R /\ (inject_Z (-1) == inject_Z n)%Q).
  { exists (-1). split; [exact Hm|reflexivity]. }
  apply Hden in Hacc. vm_compute in Hacc. discriminate.
Qed.

(** C2 (amended): for natural-number bounds [0 <= lo <= hi] the set the
    reference algorithm of the specification accumulates (counter from the
    lower bound, each value added, both endpoints included) is the set of
    numbers the type [NumericRange<lo, hi>] accepts. *)
Theorem NumericRange_refines_spec_interval (lo hi : Z) :
  0 <= lo <= hi ->
  exists T R,
    NumericRange lo hi = Some T
    /\ spec_interval lo hi = Some R
    /\ denotes T R.
Proof.
  intros Hb. destruct (NumericRange_interval lo hi Hb) as (T & HT & _ & Hacc).
  destruct (spec_interval_members lo hi) as (R & HR & Hin); [lia|].
  exists T, R. split; [exact HT|]. split; [exact HR|].
  intros q. rewrite Hacc. split.
  - intros (n & Hn & Hq). exists n. split; [apply Hin; exact Hn|exact Hq].
  - intros (n & Hn & Hq). exists n. split; [apply Hin; exact Hn|exact Hq].
Qed.

Lemma NumericRange_refines_spec_interval_witness :
  0 <= 1 <= 3 /\ exists T R, NumericRange 1 3 = Some T
                              /\ spec_interval 1 3 = Some R
                              /\ denotes T R.
Proof.
  split; [lia|]. apply (NumericRange_refines_spec_interval 1 3). lia.
Defined.

(** C3: [NumericRange<0, 0>] accepts [0] and nothing else, and
    [ConeAngleRange = NumericRange<1, 179>] accepts [1], [179] and every
    integer between them, and rejects [0] and [180]. *)
Theorem ConeAngleRange_boundaries :
  (exists T, NumericRange 0 0 = Some T
             /\ forall q : Q, accepts T q = true <-> (q == inject_Z 0)%Q)
  /\ (exists T, ConeAngleRange = Some T
                /\ accepts T (inject_Z 1) = true
                /\ accepts T (inject_Z 179) = true
                /\ (forall n : Z, accepts T (inject_Z n) = true <-> 1 <= n <= 179)
                /\ accepts T (inject_Z 0) = false
                /\ accepts T (inject_Z 180) = false).
Proof.
  split.
  - destruct (NumericRange_interval 0 0) as (T & HT & _ & Hacc); [lia|].
    exists T. split; [exact HT|]. intros q. rewrite Hacc. split.
    + intros (n & Hn & Hq). replace 0 with n by lia. exact Hq.
    + intros Hq. exists 0. split; [lia|exact Hq].
  - destruct (NumericRange_interval 1 179) as (T & HT & _ & Hacc); [lia|].
    pose proof (accepts_integer T (fun n => 1 <= n <= 179) Hacc) as HZ.
    exists T. split; [exact HT|].
    split; [apply HZ; lia|]. split; [apply HZ; lia|]. split; [exact HZ|].
    split; apply not_true_is_false; rewrite HZ; lia.
Qed.

(** C8: deriving the type twice gives the same type.  Whatever the bounds,
    two unfoldings that finish, however deep, produce one and the same
    type, each assignable to the other and accepting the same numbers; and
    for a natural upper bound every unfolding deep enough does finish. *)
Theorem NumericRange_rederived (lo hi : Z) :
  (forall f1 f2 T1 T2,
     NumericRange_fuel f1 lo hi [] TNever = Some T1 ->
     NumericRange_fuel f2 lo hi [] TNever = Some T2 ->
     T1 = T2 /\ assignable T1 T2 = true /\ assignable T2 T1 = true
     /\ forall q : Q, accepts T1 q = accepts T2 q)
  /\ (0 <= hi ->
      exists T, forall fuel, (Z.to_nat hi < fuel)%nat ->
        NumericRange_fuel fuel lo hi [] TNever = Some T).
Proof.
  split.
  - intros f1 f2 T1 T2 H1 H2.
    pose proof (NumericRange_fuel_agree _ _ _ _ _ _ _ _ H1 H2) as <-.
    assert (Hlu : literal_union T1).
    { destruct (Z.lt_ge_cases hi 0) as [Hneg|Hpos].
      - rewrite NumericRange_diverges in H1 by exact Hneg. discriminate.
      - destruct (NumericRange_members lo hi Hpos) as (T & HT & Hlu & _).
        apply NumericRange_complete in H1. congruence. }
    repeat split; auto using literal_union_refl.
  - intros Hpos. destruct (NumericRange_members lo hi Hpos) as (T & HT & _).
    exists T. intros fuel Hf. apply NumericRange_enough; assumption.
Qed.

Lemma NumericRange_rederived_witness :
  exists T, NumericRange_fuel 3 0 2 [] TNever = Some T
            /\ NumericRange_fuel 7 0 2 [] TNever = Some T
            /\ assignable T T = true.
Proof.
  destruct (NumericRange_rederived 0 2) as [Hsame _].
  destruct (Hsame 3%nat 7%nat
              (TUnion (TUnion (TUnion TNever (lit 1)) (lit 0)) (lit 2))
              (TUnion (TUnion (TUnion TNever (lit 1)) (lit 0)) (lit 2))
              eq_refl eq_refl) as (_ & Hab & _).
  eexists. split; [reflexivity|]. split; [reflexivity|exact Hab].
Defined.

(** C9: for natural-number bounds in reverse order, [0 <= hi < lo],
    [NumericRange<lo, hi>] is produced and accepts its two bounds and
    nothing else: it is not empty, and the two bounds differ. *)
Theorem NumericRange_reversed_bounds (lo hi : Z) :
  0 <= hi < lo ->
  exists T,
    NumericRange lo hi = Some T
    /\ (forall q : Q, accepts T q = true <->
          ((q == inject_Z lo)%Q \/ (q == inject_Z hi)%Q))
    /\ (forall n : Z, accepts T (inject_Z n) = true <-> (n = lo \/ n = hi))
    /\ accepts T (inject_Z lo) = true
    /\ accepts T (inject_Z hi) = true
    /\ lo <> hi.
Proof.
  intros Hb. destruct (NumericRange_reversed lo hi Hb) as (T & HT & _ & Hacc).
  exists T. split; [exact HT|]. split; [exact Hacc|].
  split; [|split; [|split]].
  - intros n. rewrite Hacc, !Qeq_inject_Z. reflexivity.
  - apply Hacc. left. reflexivity.
  - apply Hacc. right. reflexivity.
  - lia.
Qed.

Lemma NumericRange_reversed_bounds_witness :
  0 <= 1 < 3 /\ exists T, NumericRange 3 1 = Some T
                          /\ accepts T (inject_Z 2) = false.
Proof.
  split; [lia|].
  destruct (NumericRange_reversed_bounds 3 1) as (T & HT & _ & HZ & _); [lia|].
  exists T. split; [exact HT|].
  apply not_true_is_false. rewrite HZ. lia.
Defined.

(** ** The enumerations *)

Section Enumerations.

Lemma all_members_complete (m : enum_member) : In m all_members.
Proof.
  destruct m as [[]|[]|[]|[]|[]|[]|[]]; vm_compute; tauto.
Qed.

(** No two members, of one enumeration or of two, have the same code. *)
Lemma member_code_inj (m1 m2 : enum_member) :
  member_code m1 = member_code m2 -> m1 = m2.
Proof.
  destruct m1 as [[]|[]|[]|[]|[]|[]|[]];
    destruct m2 as [[]|[]|[]|[]|[]|[]|[]];
    intros H; (reflexivity || discriminate H).
Qed.

End Enumerations.

(** C4: every member whose doc comment states an integer value has that
    value as its code; the members of every enumeration but [BlendingMode]
    state one; in particular [AutoOrientType.NO_AUTO_ORIENT = 4212],
    [AutoOrientType.ALONG_PATH = 4213], [BlendingMode.NORMAL = 5204] and
    [TrackMatteType.NO_TRACK_MATTE = 11311]; [all_members] lists every
    member, and their codes, in source order, are the table below. *)
Theorem enum_codes_as_documented :
  (forall m d, member_documented m = Some d -> member_code m = d)
  /\ (forall m, member_documented m = None <-> enum_of m = EBlendingMode)
  /\ AutoOrientType.code AutoOrientType.NO_AUTO_ORIENT = 4212
  /\ AutoOrientType.code AutoOrientType.ALONG_PATH = 4213
  /\ BlendingMode.code BlendingMode.NORMAL = 5204
  /\ TrackMatteType.code TrackMatteType.NO_TRACK_MATTE = 11311
  /\ (forall m, In m all_members)
  /\ map member_code all_members =
     [4213; 4214; 4215; 4212; 5220; 5244; 5213; 5212; 5209; 5216; 5227;
      5226; 5206; 5207; 5245; 5223; 5205; 5246; 5224; 5218; 5230; 5214;
      5208; 5243; 5228; 5229; 5233; 5221; 5217; 5210; 5204; 5211; 5234;
      5215; 5222; 5219; 5225; 5231; 5235; 5236; 5247; 5232; 11213; 11211;
      11212; 10212; 10210; 10211; 10201; 10202; 4412; 4414; 4411; 4413;
      11312; 11313; 11314; 11315; 11311].
Proof.
  split; [|split].
  - intros m d H.
    destruct m as [[]|[]|[]|[]|[]|[]|[]]; simpl in H;
      (discriminate H || (injection H as <-; reflexivity)).
  - intros m. destruct m as [[]|[]|[]|[]|[]|[]|[]]; simpl;
      split; intros H; (reflexivity || discriminate H).
  - repeat (split; [reflexivity|]).
    split; [exact all_members_complete|reflexivity].
Qed.

Lemma enum_codes_as_documented_witness :
  member_documented (InLightType LightType.SPOT) = Some 4413
  /\ member_code (InLightType LightType.SPOT) = 4413.
Proof.
  split; [reflexivity|].
  exact (proj1 enum_codes_as_documented (InLightType LightType.SPOT) 4413 eq_refl).
Defined.

(** C5: within each of the seven enumerations the codes are unique, and no
    code belongs to two enumerations. *)
Theorem enum_codes_unique_and_disjoint :
  (forall a b : AutoOrientType.t,
     AutoOrientType.code a = AutoOrientType.code b -> a = b)
  /\ (forall a b : BlendingMode.t,
       BlendingMode.code a = BlendingMode.code b -> a = b)
  /\ (forall a b : FrameBlendingType.t,
       FrameBlendingType.code a = FrameBlendingType.code b -> a = b)
  /\ (forall a b : LayerQuality.t,
       LayerQuality.code a = LayerQuality.code b -> a = b)
  /\ (forall a b : LayerSamplingQuality.t,
       LayerSamplingQuality.code a = LayerSamplingQuality.code b -> a = b)
  /\ (forall a b : LightType.t, LightType.code a = LightType.code b -> a = b)
  /\ (forall a b : TrackMatteType.t,
       TrackMatteType.code a = TrackMatteType.code b -> a = b)
  /\ (forall m1 m2 : enum_member,
       member_code m1 = member_code m2 -> enum_of m1 = enum_of m2)
  /\ NoDup (map member_code all_members).
Proof.
  assert (Hsame : forall (A : Set) (inj : A -> enum_member) (code : A -> Z),
             (forall x y, inj x = inj y -> x = y) ->
             (forall x, member_code (inj x) = code x) ->
             forall a b, code a = code b -> a = b).
  { intros A inj code Hinj Hcode a b H. apply Hinj, member_code_inj.
    rewrite !Hcode. exact H. }
  repeat match goal with |- _ /\ _ => split end.
  - apply (Hsame _ InAutoOrientType); [intros x y H; congruence|reflexivity].
  - apply (Hsame _ InBlendingMode); [intros x y H; congruence|reflexivity].
  - apply (Hsame _ InFrameBlendingType); [intros x y H; congruence|reflexivity].
  - apply (Hsame _ InLayerQuality); [intros x y H; congruence|reflexivity].
  - apply (Hsame _ InLayerSamplingQuality); [intros x y H; congruence|reflexivity].
  - apply (Hsame _ InLightType); [intros x y H; congruence|reflexivity].
  - apply (Hsame _ InTrackMatteType); [intros x y H; congruence|reflexivity].
  - intros m1 m2 H. apply member_code_inj in H. now subst.
  - apply (bool_decide_unpack (NoDup (map member_code all_members))).
    vm_compute. exact I.
Qed.

Lemma enum_codes_unique_and_disjoint_witness :
  member_code (InLayerQuality LayerQuality.DRAFT)
    <> member_code (InLayerSamplingQuality LayerSamplingQuality.BILINEAR).
Proof.
  intros H.
  pose proof (proj1 (proj2 (proj2 (proj2 (proj2 (proj2 (proj2 (proj2
                enum_codes_unique_and_disjoint)))))))
                (InLayerQuality LayerQuality.DRAFT)
                (InLayerSamplingQuality LayerSamplingQuality.BILINEAR) H) as Hen.
  discriminate Hen.
Defined.

(** ** The branded types *)

Section Branded.

Lemma tagged_assignable other name x :
  assignable (tagged other x) (branded name) = String.eqb other name.
Proof. reflexivity. Qed.

Lemma branded_assignable_number name : assignable (branded name) TNumber = true.
Proof. reflexivity. Qed.

Lemma branded_refl name : assignable (branded name) (branded name) = true.
Proof.
  change (assignable (branded name) (branded name))
    with (String.eqb name name).
  apply String.eqb_refl.
Qed.

End Branded.

(** C6, as stated, fails: the plain literal [99999], outside the range
    documented for [TimeRange], is not assignable to [TimeRange]. *)
Lemma TimeRange_rejects_plain_literal :
  ~ (forall T range, In (T, range) branded_aliases ->
       forall x : Q, accepts T x = true).
Proof.
  intros H.
  assert (Hin : In (TimeRange, (-10800 # 1, 10800 # 1)%Q) branded_aliases)
    by (simpl; tauto).
  specialize (H _ _ Hin (99999 # 1)%Q). vm_compute in H. discriminate.
Qed.

(** C6 (amended): the branded types carry no bound.  For each of
    [ApertureRange], [TimeRange], [DurationRange] and [PixelDimension],
    whether a number is admitted never depends on its magnitude: a plain
    numeric literal is not assignable, whatever its value; a number carrying
    the type's own brand is assignable, whatever its value; a number
    carrying another brand is not; and the branded type is itself a
    subtype of [number]. *)
Theorem branded_types_carry_no_bound (T : ty) (range : Q * Q) :
  In (T, range) branded_aliases ->
  exists name : string,
    T = branded name
    /\ (forall x : Q, accepts T x = false)
    /\ (forall x : Q, assignable (tagged name x) T = true)
    /\ (forall other x, assignable (tagged other x) T = String.eqb other name)
    /\ assignable T TNumber = true
    /\ assignable T T = true.
Proof.
  intros Hin.
  assert (Hname : exists name, T = branded name).
  { simpl in Hin.
    destruct Hin as [H|[H|[H|[H|[]]]]]; injection H as <- _; eexists; reflexivity. }
  destruct Hname as (name & ->). exists name.
  split; [reflexivity|].
  split; [intros x; apply accepts_branded|].
  split; [intros x; rewrite tagged_assignable; apply String.eqb_refl|].
  split; [intros other x; apply tagged_assignable|].
  split; [apply branded_assignable_number|apply branded_refl].
Qed.

Lemma branded_types_carry_no_bound_witness :
  In (TimeRange, (-10800 # 1, 10800 # 1)%Q) branded_aliases
  /\ (10800 # 1 < 99999 # 1)%Q
  /\ accepts TimeRange (99999 # 1) = false
  /\ assignable (tagged "TimeRange" (99999 # 1)) TimeRange = true.
Proof.
  assert (Hin : In (TimeRange, (-10800 # 1, 10800 # 1)%Q) branded_aliases)
    by (simpl; tauto).
  split; [exact Hin|]. split; [reflexivity|].
  destruct (branded_types_carry_no_bound _ _ Hin) as (name & Hname & Hplain & _).
  split; [apply Hplain|reflexivity].
Defined.

(** ** The size of the instantiated ranges *)

(** C7, as stated, fails: [Percentage = NumericRange<0, 100>] has span
    100, more than 99. *)
Lemma NumericRange_instances_span_over_99 :
  ~ Forall (fun inst => span (snd inst) <= 99) NumericRange_instances.
Proof.
  intros H. apply Forall_inv in H. vm_compute in H. apply H. reflexivity.
Qed.

(** C7 (amended): the six aliases instantiate [NumericRange] with the
    bounds of the table; their spans are 100, 100, 16, 1, 178 and 2: every
    span is at most 178, and only those of [LabelIndex], [ColorComponent]
    and [IORRange] are at most 99.  Each instantiation produces a type. *)
Theorem NumericRange_instances_spans :
  map (fun inst => NumericRange (fst (snd inst)) (snd (snd inst)))
      NumericRange_instances
  = [Percentage; OpacityRange; LabelIndex; ColorComponent; ConeAngleRange; IORRange]
  /\ map (fun inst => span (snd inst)) NumericRange_instances
     = [100; 100; 16; 1; 178; 2]
  /\ Forall (fun inst => 0 <= span (snd inst) <= 178) NumericRange_instances
  /\ map fst (filter (fun inst => span (snd inst) <=? 99) NumericRange_instances)
     = ["LabelIndex"%string; "ColorComponent"%string; "IORRange"%string]
  /\ Forall (fun inst => exists T,
               NumericRange (fst (snd inst)) (snd (snd inst)) = Some T)
            NumericRange_instances.
Proof.
  split.
  { cbv [map NumericRange_instances fst snd Percentage OpacityRange LabelIndex
         ColorComponent ConeAngleRange IORRange].
    reflexivity. }
  split; [vm_compute; reflexivity|].
  split.
  { unfold NumericRange_instances.
    repeat (apply List.Forall_cons; [unfold span; simpl; lia|]).
    apply List.Forall_nil. }
  split; [vm_compute; reflexivity|].
  unfold NumericRange_instances.
  repeat (apply List.Forall_cons; [apply NumericRange_produces; simpl; lia|]).
  apply List.Forall_nil.
Qed.

(** ** Colours *)

(** C10: [ColorComponent = NumericRange<0, 1>] accepts the numbers [0] and
    [1] and no other, so a triple of numeric literals is assignable to
    [Color] exactly when each component is [0] or [1]; [0.5], inside the
    documented range [0.0 to 1.0], is rejected as a component. *)
Theorem ColorComponent_only_0_and_1 :
  exists c,
    ColorComponent = Some c
    /\ Color = Some [c; c; c]
    /\ (forall q : Q, accepts c q = true <->
          ((q == inject_Z 0)%Q \/ (q == inject_Z 1)%Q))
    /\ (forall r g b : Q,
          tuple_assignable [TNumLit r; TNumLit g; TNumLit b] [c; c; c] = true <->
          (((r == inject_Z 0)%Q \/ (r == inject_Z 1)%Q)
           /\ ((g == inject_Z 0)%Q \/ (g == inject_Z 1)%Q)
           /\ ((b == inject_Z 0)%Q \/ (b == inject_Z 1)%Q)))
    /\ accepts c (1 # 2) = false
    /\ tuple_assignable [TNumLit (1 # 2); lit 0; lit 1] [c; c; c] = false
    /\ (fst Color_documented_range <= 1 # 2 <= snd Color_documented_range)%Q.
Proof.
  exists (TUnion (TUnion TNever (lit 0)) (lit 1)).
  assert (Hacc : forall q : Q,
             accepts (TUnion (TUnion TNever (lit 0)) (lit 1)) q = true <->
             ((q == inject_Z 0)%Q \/ (q == inject_Z 1)%Q)).
  { intros q. rewrite !accepts_union, accepts_never, !orb_true_iff,
      !accepts_lit_true.
    split; [intros [[H|H]|H]; [discriminate|auto|auto]|intros [H|H]; auto]. }
  split; [reflexivity|]. split; [reflexivity|]. split; [exact Hacc|].
  split.
  - intros r g b.
    change (tuple_assignable [TNumLit r; TNumLit g; TNumLit b]
              [TUnion (TUnion TNever (lit 0)) (lit 1);
               TUnion (TUnion TNever (lit 0)) (lit 1);
               TUnion (TUnion TNever (lit 0)) (lit 1)])
      with (accepts (TUnion (TUnion TNever (lit 0)) (lit 1)) r
            && (accepts (TUnion (TUnion TNever (lit 0)) (lit 1)) g
                && (accepts (TUnion (TUnion TNever (lit 0)) (lit 1)) b && true))).
    rewrite andb_true_r, !andb_true_iff, !Hacc. reflexivity.
  - split; [reflexivity|]. split; [reflexivity|].
    split; vm_compute; discriminate.
Qed.

(** * Further properties of the declarations *)

(** ** More on assignability *)

Section AssignabilityMore.

(** Equal numbers are the same literal type as far as assignability goes. *)
Lemma assignable_numlit_Qeq p q T :
  (p == q)%Q -> assignable (TNumLit p) T = assignable (TNumLit q) T.
Proof.
  intros Hpq. induction T; simpl; try reflexivity.
  - destruct (Qeq_bool p q0) eqn:Hp, (Qeq_bool q q0) eqn:Hq; try reflexivity.
    + apply Qeq_bool_iff in Hp. apply Qeq_bool_neq in Hq. exfalso. apply Hq.
      rewrite <- Hpq. exact Hp.
    + apply Qeq_bool_iff in Hq. apply Qeq_bool_neq in Hp. exfalso. apply Hp.
      rewrite Hpq. exact Hq.
  - rewrite IHT1, IHT2. reflexivity.
  - rewrite IHT1, IHT2. reflexivity.
Qed.

(** What a union of literals is assignable to accepts all its literals. *)
Lemma literal_union_assignable_inv S T :
  literal_union S -> assignable S T = true ->
  forall q, accepts S q = true -> accepts T q = true.
Proof.
  induction 1 as [|p|a b Ha IHa Hb IHb]; intros Hass q Hq.
  - discriminate Hq.
  - rewrite accepts_numlit in Hq. apply Qeq_bool_iff in Hq.
    unfold accepts. rewrite (assignable_numlit_Qeq q p T Hq). exact Hass.
  - rewrite assignable_union_l in Hass. apply andb_true_iff in Hass as [H1 H2].
    rewrite accepts_union in Hq. apply orb_true_iff in Hq as [Hq|Hq]; auto.
Qed.

Lemma branded_not_assignable_literal_union name T :
  literal_union T -> assignable (branded name) T = false.
Proof.
  induction 1 as [| |a b Ha IHa Hb IHb]; try reflexivity.
  change (assignable (branded name) (TUnion a b))
    with (assignable (branded name) a || assignable (branded name) b).
  rewrite IHa, IHb. reflexivity.
Qed.

End AssignabilityMore.

(** ** More on the unfolding of [NumericRange] *)

Section UnfoldingMore.

Variables START END : Z.

Lemma extends_length_END (ARR : tuple) :
  extends (tuple_length ARR) (lit END) = (Z.of_nat (length ARR) =? END).
Proof. apply Qeq_bool_inject_Z. Qed.

(** Too little fuel: the base case is not reached. *)
Lemma NumericRange_fuel_short fuel : forall (ARR : tuple) ACC,
  Z.of_nat (length ARR) + Z.of_nat fuel <= END ->
  NumericRange_fuel fuel START END ARR ACC = None.
Proof.
  induction fuel as [|fuel IH]; intros ARR ACC Hlen; [reflexivity|].
  rewrite NumericRange_fuel_eq, extends_length_END.
  replace (Z.of_nat (length ARR) =? END) with false
    by (symmetry; apply Z.eqb_neq; lia).
  apply IH. rewrite length_app. simpl. lia.
Qed.

(** Any tuple no longer than [END], any accumulator: the unfolding finishes,
    keeps the accumulator, adds both bounds, and stays below [number] when
    the accumulator is. *)
Lemma NumericRange_fuel_general n : forall (ARR : tuple) ACC,
  Z.of_nat (length ARR) + Z.of_nat n = END ->
  exists T,
    NumericRange_fuel (S n) START END ARR ACC = Some T
    /\ (forall q, accepts ACC q = true -> accepts T q = true)
    /\ accepts T (inject_Z START) = true
    /\ accepts T (inject_Z END) = true
    /\ (assignable ACC TNumber = true -> assignable T TNumber = true).
Proof.
  induction n as [|n IH]; intros ARR ACC Hlen.
  - exists (TUnion (TUnion ACC (lit START)) (lit END)).
    split; [|split; [|split; [|split]]].
    + rewrite NumericRange_fuel_eq, extends_length_END.
      replace (Z.of_nat (length ARR) =? END) with true
        by (symmetry; apply Z.eqb_eq; lia).
      reflexivity.
    + intros q Hq. rewrite !accepts_union, Hq. reflexivity.
    + rewrite !accepts_union, !orb_true_iff. left. right.
      rewrite accepts_lit_Z. apply Z.eqb_refl.
    + rewrite !accepts_union, !orb_true_iff. right.
      rewrite accepts_lit_Z. apply Z.eqb_refl.
    + intros H. rewrite !assignable_union_l, H. reflexivity.
  - destruct (IH (ARR ++ [lit 1])
                (if extends (tuple_index ARR START) TUndefined
                 then ACC else TUnion ACC (tuple_length ARR)))
      as (T & HT & Hacc & Hs & He & Hnum).
    { rewrite length_app. simpl. lia. }
    exists T. split; [|split; [|split; [|split]]]; auto.
    + rewrite NumericRange_fuel_eq, extends_length_END.
      replace (Z.of_nat (length ARR) =? END) with false
        by (symmetry; apply Z.eqb_neq; lia).
      exact HT.
    + intros q Hq. apply Hacc.
      destruct (extends (tuple_index ARR START) TUndefined); [exact Hq|].
      rewrite accepts_union, Hq. reflexivity.
    + intros H. apply Hnum.
      destruct (extends (tuple_index ARR START) TUndefined); [exact H|].
      rewrite assignable_union_l, H. reflexivity.
Qed.

End UnfoldingMore.

(** ** The range utility: depth, parameters, inclusion *)

(** X1: with a natural upper bound the alias is unfolded exactly [END + 1]
    times, whatever the lower bound: an unfolding of depth [fuel] produces a
    type if and only if [fuel > END]. *)
Theorem NumericRange_depth (START END : Z) (fuel : nat) :
  0 <= END ->
  (exists T, NumericRange_fuel fuel START END [] TNever = Some T)
  <-> (Z.to_nat END < fuel)%nat.
Proof.
  intros HEND. split.
  - intros (T & HT). destruct (Nat.le_gt_cases fuel (Z.to_nat END)) as [Hle|Hgt];
      [|exact Hgt].
    rewrite NumericRange_fuel_short in HT by (simpl; lia). discriminate.
  - intros Hf. destruct (NumericRange_produces START END HEND) as (T & HT).
    exists T. apply NumericRange_enough; assumption.
Qed.

Lemma NumericRange_depth_witness :
  0 <= 179
  /\ NumericRange_fuel 179 1 179 [] TNever = None
  /\ exists T, NumericRange_fuel 180 1 179 [] TNever = Some T.
Proof.
  split; [lia|]. split.
  - destruct (NumericRange_fuel 179 1 179 [] TNever) as [T|] eqn:HT; [|reflexivity].
    assert (H : (Z.to_nat 179 < 179)%nat).
    { apply (proj1 (NumericRange_depth 1 179 179 ltac:(lia))).
      exists T. exact HT. }
    lia.
  - apply (proj2 (NumericRange_depth 1 179 180 ltac:(lia))). lia.
Defined.

(** X2: an upper bound below the length of the tuple is never reached: with
    a negative [END], or with a third argument longer than [END], no
    unfolding produces a type, whatever the other arguments. *)
Theorem NumericRange_never_finishes
  (START END : Z) (ARR : tuple) (ACC : ty) (fuel : nat) :
  END < Z.of_nat (length ARR) ->
  NumericRange_fuel fuel START END ARR ACC = None.
Proof.
  intros H. apply NumericRange_fuel_diverges. exact H.
Qed.

Lemma NumericRange_never_finishes_witness :
  -1 < Z.of_nat (length (@nil ty))
  /\ NumericRange_fuel 1000 (-5) (-1) [] TNever = None
  /\ NumericRange_fuel 1000 0 2 [lit 1; lit 1; lit 1] TNever = None.
Proof.
  split; [simpl; lia|]. split.
  - apply NumericRange_never_finishes. simpl. lia.
  - apply NumericRange_never_finishes. simpl. lia.
Defined.



(** X4: the third and fourth parameters may be supplied.  For any tuple no
    longer than [END] and any accumulator the unfolding finishes after
    [END - length + 1] steps, and the result accepts both bounds and every
    number the accumulator accepted: nothing is ever dropped. *)
Theorem NumericRange_keeps_accumulator
  (START END : Z) (ARR : tuple) (ACC : ty) :
  Z.of_nat (length ARR) <= END ->
  exists T,
    NumericRange_fuel (S (Z.to_nat (END - Z.of_nat (length ARR))))
      START END ARR ACC = Some T
    /\ (forall q : Q, accepts ACC q = true -> accepts T q = true)
    /\ accepts T (inject_Z START) = true
    /\ accepts T (inject_Z END) = true.
Proof.
  intros Hlen.
  destruct (NumericRange_fuel_general START END
              (Z.to_nat (END - Z.of_nat (length ARR))) ARR ACC)
    as (T & HT & Hacc & Hs & He & _); [lia|].
  exists T. auto.
Qed.

Lemma NumericRange_keeps_accumulator_witness :
  Z.of_nat (length [TUndefined; lit 7]) <= 4
  /\ exists T, NumericRange_fuel 3 9 4 [TUndefined; lit 7] (lit 50) = Some T
               /\ accepts T (inject_Z 50) = true
               /\ accepts T (inject_Z 9) = true.
Proof.
  split; [simpl; lia|].
  destruct (NumericRange_keeps_accumulator 9 4 [TUndefined; lit 7] (lit 50))
    as (T & HT & Hacc & Hs & _); [simpl; lia|].
  exists T. split; [exact HT|]. split; [|exact Hs].
  apply Hacc. reflexivity.
Defined.

(** X5: the constraint [ACC extends number] is kept: when the accumulator
    handed in is assignable to [number], so is the type produced, for any
    tuple no longer than [END]. *)
Theorem NumericRange_extends_number
  (START END : Z) (ARR : tuple) (ACC : ty) :
  Z.of_nat (length ARR) <= END ->
  assignable ACC TNumber = true ->
  exists T,
    NumericRange_fuel (S (Z.to_nat (END - Z.of_nat (length ARR))))
      START END ARR ACC = Some T
    /\ assignable T TNumber = true.
Proof.
  intros Hlen HACC.
  destruct (NumericRange_fuel_general START END
              (Z.to_nat (END - Z.of_nat (length ARR))) ARR ACC)
    as (T & HT & _ & _ & _ & Hnum); [lia|].
  exists T. auto.
Qed.

Lemma NumericRange_extends_number_witness :
  Z.of_nat (length (@nil ty)) <= 3
  /\ assignable TNever TNumber = true
  /\ exists T, IORRange = Some T /\ assignable T TNumber = true.
Proof.
  split; [simpl; lia|]. split; [reflexivity|].
  apply (NumericRange_extends_number 1 3 [] TNever); [simpl; lia|reflexivity].
Defined.



(** ** The branded types: tags *)

(** X7: a branded type is told from another by its tag alone: one is
    assignable to the other exactly when the tags are equal, so the four
    branded aliases are pairwise incompatible. *)
Theorem brands_are_nominal :
  (forall a b : string, assignable (branded a) (branded b) = true <-> a = b)
  /\ (forall (T1 T2 : ty) (r1 r2 : Q * Q),
       In (T1, r1) branded_aliases -> In (T2, r2) branded_aliases ->
       (assignable T1 T2 = true <-> T1 = T2)).
Proof.
  split.
  - intros a b.
    change (assignable (branded a) (branded b)) with (String.eqb a b).
    apply String.eqb_eq.
  - intros T1 T2 r1 r2 H1 H2. simpl in H1, H2.
    destruct H1 as [H1|[H1|[H1|[H1|[]]]]]; injection H1 as <- _;
      destruct H2 as [H2|[H2|[H2|[H2|[]]]]]; injection H2 as <- _;
      (split; [intros H; (reflexivity || (vm_compute in H; discriminate H))
              |intros H; (reflexivity || discriminate H)]).
Qed.

Lemma brands_are_nominal_witness :
  In (DurationRange, (0 # 1, 10800 # 1)%Q) branded_aliases
  /\ In (TimeRange, (-10800 # 1, 10800 # 1)%Q) branded_aliases
  /\ assignable DurationRange TimeRange = false.
Proof.
  assert (H1 : In (DurationRange, (0 # 1, 10800 # 1)%Q) branded_aliases)
    by (simpl; tauto).
  assert (H2 : In (TimeRange, (-10800 # 1, 10800 # 1)%Q) branded_aliases)
    by (simpl; tauto).
  split; [exact H1|]. split; [exact H2|].
  pose proof (proj2 brands_are_nominal _ _ _ _ H1 H2) as Hiff.
  apply not_true_is_false. intros H. apply Hiff in H. discriminate H.
Defined.

(** X8: range types and branded types do not mix: a type produced by
    [NumericRange] is not assignable to a branded type, a branded type is
    not assignable to it, and neither is [number] to a branded type. *)
Theorem ranges_and_brands_do_not_mix (START END : Z) (name : string) :
  0 <= END ->
  exists T,
    NumericRange START END = Some T
    /\ assignable T (branded name) = false
    /\ assignable (branded name) T = false
    /\ assignable TNumber (branded name) = false.
Proof.
  intros HEND.
  destruct (NumericRange_members START END HEND) as (T & HT & Hlu & Hacc).
  exists T. split; [exact HT|]. split; [|split].
  - apply not_true_is_false. intros Hass.
    assert (Hs : accepts T (inject_Z START) = true).
    { apply Hacc. left. reflexivity. }
    apply (literal_union_assignable_inv T _ Hlu Hass) in Hs.
    rewrite accepts_branded in Hs. discriminate Hs.
  - apply branded_not_assignable_literal_union. exact Hlu.
  - reflexivity.
Qed.

Lemma ranges_and_brands_do_not_mix_witness :
  0 <= 100
  /\ exists T, Percentage = Some T
               /\ assignable T DurationRange = false
               /\ assignable DurationRange T = false.
Proof.
  split; [lia|].
  destruct (ranges_and_brands_do_not_mix 0 100 "DurationRange")
    as (T & HT & H1 & H2 & _); [lia|].
  exists T. auto.
Defined.

(** ** Tuple types *)

(** X9: a tuple type is assignable to [Point] (to [ThreeDPoint]) exactly
    when it has two (three) elements, each assignable to [number]; [Point]
    and [TwoDPoint] are interchangeable; and [Color] is a proper subtype of
    [ThreeDPoint]: every colour is a triple of numbers, a triple of numbers
    is not a colour. *)
Theorem point_tuples :
  (forall src : tuple,
     tuple_assignable src Point = true <->
     exists a b, src = [a; b]
                 /\ assignable a TNumber = true /\ assignable b TNumber = true)
  /\ (forall src : tuple,
       tuple_assignable src ThreeDPoint = true <->
       exists a b c, src = [a; b; c]
                     /\ assignable a TNumber = true /\ assignable b TNumber = true
                     /\ assignable c TNumber = true)
  /\ tuple_assignable Point TwoDPoint = true
  /\ tuple_assignable TwoDPoint Point = true
  /\ tuple_assignable Point ThreeDPoint = false
  /\ (exists col, ThreeDColorValue = Some col
                  /\ tuple_assignable col ThreeDPoint = true
                  /\ tuple_assignable ThreeDPoint col = false).
Proof.
  split; [|split].
  - intros src. split.
    + destruct src as [|a [|b [|c src]]]; intros H; unfold Point in H;
        cbn [tuple_assignable] in H; rewrite ?andb_false_r in H;
        try discriminate H.
      rewrite andb_true_r in H. apply andb_true_iff in H as [Ha Hb].
      exists a, b. auto.
    + intros (a & b & -> & Ha & Hb). unfold Point. cbn [tuple_assignable].
      rewrite Ha, Hb. reflexivity.
  - intros src. split.
    + destruct src as [|a [|b [|c [|d src]]]]; intros H; unfold ThreeDPoint in H;
        cbn [tuple_assignable] in H; rewrite ?andb_false_r in H;
        try discriminate H.
      rewrite andb_true_r in H.
      apply andb_true_iff in H as [Ha H]. apply andb_true_iff in H as [Hb Hc].
      exists a, b, c. auto.
    + intros (a & b & c & -> & Ha & Hb & Hc). unfold ThreeDPoint.
      cbn [tuple_assignable]. rewrite Ha, Hb, Hc. reflexivity.
  - split; [reflexivity|]. split; [reflexivity|]. split; [reflexivity|].
    eexists. split; [reflexivity|]. split; reflexivity.
Qed.

(** ** The classes and interfaces *)

Section Declarations.

Import LayerModule.

(** A name that inherits from anything is the name of a declaration. *)
Lemma inherits_declared c a :
  inherits c a = true -> exists d, In d declarations /\ d_name d = c.
Proof.
  unfold inherits, heritage.
  destruct (length declarations) as [|fuel]; [discriminate|].
  cbn [chain]. destruct (find_decl c) as [d|] eqn:Hd; [|discriminate].
  intros _. unfold find_decl in Hd. apply find_some in Hd as [Hin Hname].
  exists d. split; [exact Hin|]. apply String.eqb_eq. exact Hname.
Qed.

End Declarations.

(** X10: the declarations are well formed: no two have the same name, no
    body declares a member name twice, and from every declaration the
    [extends] clauses lead, in at most three steps, to a declaration that
    extends nothing: the hierarchy has no cycle and no undeclared parent. *)
Theorem layer_hierarchy_well_formed :
  NoDup (map LayerModule.d_name LayerModule.declarations)
  /\ Forall (fun d => NoDup (omap LayerModule.member_name (LayerModule.d_members d)))
            LayerModule.declarations
  /\ Forall (fun d =>
               exists root,
                 head (LayerModule.heritage (LayerModule.d_name d)) = Some d
                 /\ last (LayerModule.heritage (LayerModule.d_name d)) = Some root
                 /\ LayerModule.d_extends root = None
                 /\ (length (LayerModule.heritage (LayerModule.d_name d)) <= 4)%nat)
            LayerModule.declarations.
Proof.
  split; [|split].
  - apply (bool_decide_unpack _). vm_compute. exact I.
  - unfold LayerModule.declarations.
    repeat (apply List.Forall_cons;
            [apply (bool_decide_unpack _); vm_compute; exact I|]).
    apply List.Forall_nil.
  - unfold LayerModule.declarations.
    repeat (apply List.Forall_cons;
            [eexists; split; [vm_compute; reflexivity|];
             split; [vm_compute; reflexivity|];
             split; [reflexivity|vm_compute; lia]|]).
    apply List.Forall_nil.
Qed.

(** X11: the declarations that inherit from [Layer] are the seven layer
    classes, and every method of [LayerCollection] whose name begins with
    [add] returns one of them; there are ten such methods, and the
    collection is indexed by number with elements of type [Layer]. *)
Theorem LayerCollection_adds_layers :
  map LayerModule.d_name
      (List.filter (fun d => LayerModule.inherits (LayerModule.d_name d) "Layer")
              LayerModule.declarations)
  = ["Layer"; "AVLayer"; "CameraLayer"; "LightLayer"; "ShapeLayer";
     "TextLayer"; "ThreeDModelLayer"]%string
  /\ (forall n ps r,
        In (LayerModule.Method n ps r)
           (LayerModule.d_members LayerModule.LayerCollection) ->
        String.prefix "add" n = true ->
        LayerModule.inherits r "Layer" = true)
  /\ length (List.filter (fun m => match m with
                              | LayerModule.Method n _ _ => String.prefix "add" n
                              | _ => false
                              end)
                    (LayerModule.d_members LayerModule.LayerCollection)) = 10%nat
  /\ In (LayerModule.IndexSignature true "number" "Layer")
        (LayerModule.d_members LayerModule.LayerCollection).
Proof.
  split; [vm_compute; reflexivity|]. split; [|split].
  - intros n ps r Hin Hadd. simpl in Hin.
    repeat (destruct Hin as [Hin|Hin];
            [try discriminate Hin; injection Hin as <- <- <-;
             first [reflexivity | discriminate Hadd]|]).
    destruct Hin.
  - vm_compute. reflexivity.
  - simpl. tauto.
Qed.

(** X12: every layer has the transform properties at hand: for each class
    that inherits from [Layer], each property of [_TransformGroup]
    ([anchorPoint], [position], ..., [pointOfInterest]) resolves on the
    class to a member with the same name, the same type and the same
    [readonly] modifier, and [transform] resolves to the group itself. *)
Theorem Layer_mirrors_transform_group (c : string) (m : LayerModule.member) (n : string) :
  LayerModule.inherits c "Layer" = true ->
  In m (LayerModule.d_members LayerModule._TransformGroup) ->
  LayerModule.member_name m = Some n ->
  LayerModule.resolve c n = Some m
  /\ LayerModule.resolve c "transform"
     = Some (LayerModule.Property "transform" true "_TransformGroup").
Proof.
  intros Hinh Hm Hn.
  assert (Hchk :
    forallb (fun d =>
      implb (LayerModule.inherits (LayerModule.d_name d) "Layer")
        (bool_decide (LayerModule.resolve (LayerModule.d_name d) "transform"
                      = Some (LayerModule.Property "transform" true "_TransformGroup"))
         && forallb (fun m =>
              match LayerModule.member_name m with
              | Some n => bool_decide (LayerModule.resolve (LayerModule.d_name d) n = Some m)
              | None => true
              end) (LayerModule.d_members LayerModule._TransformGroup)))
      LayerModule.declarations = true) by (vm_compute; reflexivity).
  destruct (inherits_declared c _ Hinh) as (d & Hd & <-).
  rewrite List.forallb_forall in Hchk. specialize (Hchk d Hd).
  rewrite Hinh in Hchk. cbn [implb] in Hchk.
  apply andb_true_iff in Hchk as [Ht Hall].
  rewrite List.forallb_forall in Hall. specialize (Hall m Hm).
  rewrite Hn in Hall.
  split; [apply (bool_decide_eq_true_1 _ Hall)|apply (bool_decide_eq_true_1 _ Ht)].
Qed.

Lemma Layer_mirrors_transform_group_witness :
  LayerModule.inherits "TextLayer" "Layer" = true
  /\ In (LayerModule.Property "opacity" true "OneDProperty")
        (LayerModule.d_members LayerModule._TransformGroup)
  /\ LayerModule.resolve "TextLayer" "opacity"
     = Some (LayerModule.Property "opacity" true "OneDProperty").
Proof.
  assert (Hin : In (LayerModule.Property "opacity" true "OneDProperty")
                   (LayerModule.d_members LayerModule._TransformGroup))
    by (simpl; tauto).
  split; [reflexivity|]. split; [exact Hin|].
  exact (proj1 (Layer_mirrors_transform_group "TextLayer" _ "opacity"
                  eq_refl Hin eq_refl)).
Defined.

(** X13: inheriting never changes a member, with one exception.  When a
    declaration inherits from another, each member of the ancestor resolves
    on the heir to that very member (same type, parameters and modifiers),
    unless the heir is [TextLayer] and the member is [source], which
    [AVLayer] declares as [any] and [TextLayer] declares again as [null]. *)
Theorem inherited_members_unchanged
  (heir ancestor : LayerModule.declaration) (m : LayerModule.member) (n : string) :
  In heir LayerModule.declarations ->
  In ancestor LayerModule.declarations ->
  LayerModule.inherits (LayerModule.d_name heir) (LayerModule.d_name ancestor) = true ->
  In m (LayerModule.d_members ancestor) ->
  LayerModule.member_name m = Some n ->
  LayerModule.resolve (LayerModule.d_name heir) n = Some m
  \/ (heir = LayerModule.TextLayer /\ ancestor = LayerModule.AVLayer
      /\ m = LayerModule.Property "source" true "any"
      /\ LayerModule.resolve (LayerModule.d_name heir) n
         = Some (LayerModule.Property "source" true "null")).
Proof.
  intros Hheir Hanc Hinh Hm Hn.
  assert (Hchk :
    forallb (fun h =>
      forallb (fun a =>
        implb (LayerModule.inherits (LayerModule.d_name h) (LayerModule.d_name a))
          (forallb (fun m =>
             match LayerModule.member_name m with
             | Some n =>
                 bool_decide (LayerModule.resolve (LayerModule.d_name h) n = Some m)
                 || (String.eqb (LayerModule.d_name h) "TextLayer"
                     && String.eqb (LayerModule.d_name a) "AVLayer"
                     && bool_decide (m = LayerModule.Property "source" true "any")
                     && bool_decide (LayerModule.resolve (LayerModule.d_name h) n
                                     = Some (LayerModule.Property "source" true "null")))
             | None => true
             end) (LayerModule.d_members a)))
        LayerModule.declarations)
      LayerModule.declarations = true) by (vm_compute; reflexivity).
  assert (Hname : forall d s, In d LayerModule.declarations ->
                    String.eqb (LayerModule.d_name d) s = true ->
                    LayerModule.find_decl s = Some d).
  { intros d s Hd Hs. apply String.eqb_eq in Hs. subst s.
    unfold LayerModule.declarations in Hd. simpl in Hd.
    repeat (destruct Hd as [Hd|Hd]; [subst d; reflexivity|]). destruct Hd. }
  rewrite List.forallb_forall in Hchk. specialize (Hchk heir Hheir).
  rewrite List.forallb_forall in Hchk. specialize (Hchk ancestor Hanc).
  rewrite Hinh in Hchk. cbn [implb] in Hchk.
  rewrite List.forallb_forall in Hchk. specialize (Hchk m Hm).
  rewrite Hn in Hchk. apply orb_true_iff in Hchk as [H|H].
  - left. apply (bool_decide_eq_true_1 _ H).
  - right. rewrite !andb_true_iff in H. destruct H as [[[Hh Ha] Hmm] Hr].
    apply (Hname _ _ Hheir) in Hh. apply (Hname _ _ Hanc) in Ha.
    vm_compute in Hh. vm_compute in Ha.
    injection Hh as <-. injection Ha as <-.
    split; [reflexivity|]. split; [reflexivity|].
    split; [apply (bool_decide_eq_true_1 _ Hmm)|apply (bool_decide_eq_true_1 _ Hr)].
Qed.

Lemma inherited_members_unchanged_witness :
  In LayerModule.ShapeLayer LayerModule.declarations
  /\ In LayerModule.Layer LayerModule.declarations
  /\ LayerModule.resolve "ShapeLayer" "label"
     = Some (LayerModule.Property "label" false "LabelIndex").
Proof.
  assert (H1 : In LayerModule.ShapeLayer LayerModule.declarations)
    by (unfold LayerModule.declarations; simpl; tauto).
  assert (H2 : In LayerModule.Layer LayerModule.declarations)
    by (unfold LayerModule.declarations; simpl; tauto).
  assert (H3 : In (LayerModule.Property "label" false "LabelIndex")
                  (LayerModule.d_members LayerModule.Layer))
    by (simpl; tauto).
  split; [exact H1|]. split; [exact H2|].
  destruct (inherited_members_unchanged LayerModule.ShapeLayer LayerModule.Layer
              _ "label" H1 H2 eq_refl H3 eq_refl) as [H|(H & _)].
  - exact H.
  - discriminate H.
Defined.
